(** * FieldDetector: username and password field detection in web forms

    A shallow embedding of [src/field-detector.js] and the properties of
    its classifiers and of the form assembly.

    Strings are sequences of UTF-16 code units below 256 (the Latin-1
    range), carried by [string]; element objects are records with an
    identity [uid].  The selector text that [getFieldLabel] builds from
    the [id] of a field is parsed here when the [id] is a plain attribute
    value; for any other [id] the answer, a label, [null] or a
    SyntaxError, is the one the document's selector engine gives to that
    text.  Exceptions, that SyntaxError and the TypeError of a property
    read on [null], are values of the [completion] type, and the array
    that [detectPasswordFields] fills is also modelled as an object in a
    store. *)

From Stdlib Require Import String Ascii List ZArith NArith Bool Lia Sorted.
From stdpp Require Import gmap strings.
Import ListNotations.

Local Open Scope string_scope.
Local Open Scope list_scope.

(** ** JavaScript strings *)

Module JsString.

Definition in_range (lo hi : N) (c : ascii) : bool :=
  let n := N_of_ascii c in ((lo <=? n) && (n <=? hi))%N.

(** [[a-z]], [[A-Z]], [[0-9]] *)
Definition is_lower (c : ascii) : bool := in_range 97 122 c.
Definition is_upper (c : ascii) : bool := in_range 65 90 c.
Definition is_digit (c : ascii) : bool := in_range 48 57 c.

(** [[a-z]] under the [i] flag: without the [u] flag no code unit
    outside ASCII folds onto an ASCII letter. *)
Definition is_letter (c : ascii) : bool := is_lower c || is_upper c.

(** [[a-zA-Z0-9]] *)
Definition is_alnum (c : ascii) : bool := is_lower c || is_upper c || is_digit c.

(** [\s] below 256: TAB, LF, VT, FF, CR, SPACE, NBSP. *)
Definition is_space (c : ascii) : bool :=
  in_range 9 13 c || in_range 32 32 c || in_range 160 160 c.

(** [[\s_-]] *)
Definition is_separator (c : ascii) : bool :=
  is_space c || in_range 95 95 c || in_range 45 45 c.

(** [String.prototype.toLowerCase] on one code unit below 256:
    A-Z, and U+00C0..U+00DE except the multiplication sign U+00D7. *)
Definition toLowerCase_unit (c : ascii) : ascii :=
  if is_upper c || (in_range 192 222 c && negb (in_range 215 215 c))
  then ascii_of_N (N_of_ascii c + 32)
  else c.

Fixpoint toLowerCase (s : string) : string :=
  match s with
  | EmptyString => EmptyString
  | String c s' => String (toLowerCase_unit c) (toLowerCase s')
  end.

(** [s.replace(/[C]/g, '')] and [s.replace(/[C]+/g, '')] for a character
    class [C]: every code unit of the class is dropped. *)
Fixpoint remove (cls : ascii -> bool) (s : string) : string :=
  match s with
  | EmptyString => EmptyString
  | String c s' => if cls c then remove cls s' else String c (remove cls s')
  end.

(** [s.replace(/([a-z])([A-Z])/g, '$1 $2')]: matches are found left to
    right and do not overlap; the scan resumes after the second unit. *)
Fixpoint replace_camel (s : string) : string :=
  match s with
  | EmptyString => EmptyString
  | String c1 s' =>
      match s' with
      | EmptyString => String c1 EmptyString
      | String c2 rest =>
          if is_lower c1 && is_upper c2
          then String c1 (String " " (String c2 (replace_camel rest)))
          else String c1 (replace_camel s')
      end
  end.

(** [s.split(/[C]/)] for a one-unit separator class: the pieces between
    separators, empty pieces included; [cur] is the piece being read,
    in reverse. *)
Fixpoint rev_string (acc s : string) : string :=
  match s with
  | EmptyString => acc
  | String c s' => rev_string (String c acc) s'
  end.

Fixpoint split_from (cls : ascii -> bool) (cur : string) (s : string) : list string :=
  match s with
  | EmptyString => [rev_string EmptyString cur]
  | String c s' =>
      if cls c then rev_string EmptyString cur :: split_from cls EmptyString s'
      else split_from cls (String c cur) s'
  end.

Definition split (cls : ascii -> bool) (s : string) : list string :=
  split_from cls EmptyString s.

(** [s.startsWith(p)] *)
Fixpoint startsWith (s p : string) : bool :=
  match p, s with
  | EmptyString, _ => true
  | String _ _, EmptyString => false
  | String a p', String b s' => Ascii.eqb a b && startsWith s' p'
  end.

(** [s.includes(sub)] *)
Fixpoint includes (s sub : string) : bool :=
  startsWith s sub ||
  match s with
  | EmptyString => false
  | String _ s' => includes s' sub
  end.

(** [Boolean(s)] for a string: the empty string is falsy. *)
Definition truthy (s : string) : bool := negb (String.eqb s "").

(** [a || ''] for a string [a]. *)
Definition or_empty (s : string) : string := if truthy s then s else "".

(** Every code unit of the string is in the class. *)
Fixpoint every_unit (cls : ascii -> bool) (s : string) : bool :=
  match s with
  | EmptyString => true
  | String c s' => cls c && every_unit cls s'
  end.

(** Membership of a code unit in a string. *)
Fixpoint has_unit (c : ascii) (s : string) : bool :=
  match s with
  | EmptyString => false
  | String d s' => Ascii.eqb c d || has_unit c s'
  end.

End JsString.

Import JsString.

(** [[a, b, ...].filter(Boolean)] over values that are strings or [null]. *)
Fixpoint filter_Boolean (l : list (option string)) : list string :=
  match l with
  | [] => []
  | Some s :: l' => if truthy s then s :: filter_Boolean l' else filter_Boolean l'
  | None :: l' => filter_Boolean l'
  end.

(** [array.push(x)] *)
Definition push {A} (array : list A) (x : A) : list A := array ++ [x].

(** A parameter with a default value: the default is taken when the
    argument is omitted. *)
Definition default_arg {A} (arg : option A) (dflt : A) : A :=
  match arg with Some a => a | None => dflt end.

(** ** Completions: a returned value or a thrown exception *)

Inductive JsError : Type := TypeError | SyntaxError.

Inductive completion (A : Type) : Type :=
| Return (a : A)
| Throw (e : JsError).
Arguments Return {A} a.
Arguments Throw {A} e.

#[global] Instance completion_ret : MRet completion := fun A a => Return a.

#[global] Instance completion_bind : MBind completion := fun A B k c =>
  match c with
  | Return a => k a
  | Throw e => Throw e
  end.

(** ** The document object model, as far as the detector reads it *)

#[local] Unset Elimination Schemes.

(** An element object.  [uid] stands for the identity of the object
    ([===] on objects compares identities); [localName] is the tag in
    lowercase, which type selectors match; [type], [id], [name],
    [placeholder], [disabled], [textContent], [action] and [method] are the
    properties of the same names, strings being empty when the attribute
    is missing; [attributes] holds the content attributes read through
    [getAttribute] or matched by an attribute selector. *)
Inductive Element : Type := mkElement {
  uid : nat;
  localName : string;
  type : string;
  id : string;
  name : string;
  placeholder : string;
  disabled : bool;
  attributes : gmap string string;
  textContent : string;
  action : string;
  method : string;
  parentElement : option Element
}.
#[local] Set Elimination Schemes.

(** [a === b] on two element objects. *)
Definition strict_eq (a b : Element) : bool := Nat.eqb (uid a) (uid b).

(** [a === b] where [a] may be [null] and [b] is an object. *)
Definition strict_eq_nullable (a : option Element) (b : Element) : bool :=
  match a with
  | Some a' => strict_eq a' b
  | None => false
  end.

Definition getAttribute (e : Element) (attr : string) : option string :=
  attributes e !! attr.

(** The selectors the detector passes to the DOM, parsed:
    [*], a type selector such as [input], an attribute selector
    [tag[attr="value"]], and a selector list [a, b]. *)
Inductive Selector : Type :=
| SelUniversal
| SelType (tag : string)
| SelTypeAttr (tag attr value : string)
| SelList (a b : Selector).

Fixpoint matches (sel : Selector) (e : Element) : bool :=
  match sel with
  | SelUniversal => true
  | SelType tag => String.eqb (localName e) tag
  | SelTypeAttr tag attr value =>
      String.eqb (localName e) tag &&
      match getAttribute e attr with
      | Some v => String.eqb v value
      | None => false
      end
  | SelList a b => matches a e || matches b e
  end.

(** [element.closest(selector)]: the element itself or its nearest
    ancestor that matches, [null] when there is none. *)
Fixpoint closest (sel : Selector) (e : Element) : option Element :=
  if matches sel e then Some e
  else match parentElement e with
       | Some p => closest sel p
       | None => None
       end.

(** A document: its elements in document order, which is the order of
    every [querySelectorAll] result, and the answer of its selector
    engine to [querySelector(text)] for the selector texts that are not
    parsed here. *)
Record Document : Type := mkDocument {
  elements : list Element;
  querySelector_text : string -> completion (option Element)
}.

Definition querySelectorAll (d : Document) (sel : Selector) : list Element :=
  List.filter (matches sel) (elements d).

Definition querySelector (d : Document) (sel : Selector) : option Element :=
  List.find (matches sel) (elements d).

(** [array.indexOf(x)]: the first position holding [x], or [-1]. *)
Fixpoint indexOf_from (array : list Element) (x : Element) (i : Z) : Z :=
  match array with
  | [] => (-1)%Z
  | y :: array' => if strict_eq y x then i else indexOf_from array' x (i + 1)%Z
  end.

Definition indexOf (array : list Element) (x : Element) : Z :=
  indexOf_from array x 0%Z.

(** Each element object occurs once in a document. *)
Definition wf_document (d : Document) : Prop :=
  NoDup (map uid (elements d)).

(** The global object: [document] is the ambient document, which is also
    [window.document]. *)
Module Global.
Record Window : Type := mkWindow {
  document : Document
}.
End Global.

(** ** class FieldDetector *)

Record FieldDetector : Type := mkFieldDetector {
  usernameFieldNames : list string;
  passwordFieldExcludeList : list string;
  excludedInputTypes : gset string;
  searchFieldNames : gset string
}.

(** [set.has(x)] *)
Definition has (set : gset string) (x : string) : bool := bool_decide (x ∈ set).

(** [array.includes(x)] on an array of strings *)
Definition array_includes (array : list string) (x : string) : bool :=
  existsb (String.eqb x) array.

Definition constructor : FieldDetector := {|
  usernameFieldNames := [
    "username"; "user name"; "userid"; "user id"; "customer id"; "login id"; "login";
    "benutzername"; "benutzer name"; "benutzerid"; "benutzer id";
    "email"; "email address"; "e-mail"; "e-mail address";
    "email adresse"; "e-mail adresse"
  ];
  passwordFieldExcludeList := [
    "hint"; "captcha"; "findanything"; "forgot"; "totp"; "totpcode"; "2facode";
    "mfacode"; "otc-code"; "onetimecode"; "otp-code"; "otpcode"; "security_code";
    "twofactor"; "twofa"; "twofactorcode"; "verificationcode"; "verification code"
  ];
  excludedInputTypes := list_to_set [
    "hidden"; "submit"; "reset"; "button"; "image"; "file"; "radio"; "checkbox"
  ];
  searchFieldNames := list_to_set ["search"; "query"; "find"; "go"]
|}.

(** The selectors of the source text. *)
Definition sel_input_textarea : Selector := SelList (SelType "input") (SelType "textarea").
Definition sel_input : Selector := SelType "input".
Definition sel_all : Selector := SelUniversal.
Definition sel_form : Selector := SelType "form".
Definition sel_label : Selector := SelType "label".
(** [label[for="${id}"]], parsed, for an [id] that is a plain
    attribute value. *)
Definition sel_label_for (field_id : string) : Selector := SelTypeAttr "label" "for" field_id.

(** A plain attribute value: no double quote and no backslash, which end
    or escape a quoted CSS string, and no LF, FF, CR or NUL, which break
    it or are rewritten before it is read.  Between the quotes of the
    template such a value is the string of the attribute test as it
    stands. *)
Definition is_plain_unit (c : ascii) : bool :=
  negb (in_range 34 34 c || in_range 92 92 c || in_range 10 10 c ||
        in_range 12 13 c || in_range 0 0 c).

Definition plain_attribute_value (value : string) : bool := every_unit is_plain_unit value.

(** The template literal of [getFieldLabel] as text. *)
Definition double_quote : string := String (ascii_of_N 34) EmptyString.

Definition label_for_text (field_id : string) : string :=
  String.append "label[for="
    (String.append double_quote
       (String.append field_id (String.append double_quote "]"))).

(** [document.querySelector(`label[for="${id}"]`)]: the first label
    whose [for] attribute is the [id] when the [id] is a plain attribute
    value, and otherwise what the document's engine answers to the
    text. *)
Definition querySelector_label_for (d : Document) (field_id : string)
  : completion (option Element) :=
  if plain_attribute_value field_id
  then Return (querySelector d (sel_label_for field_id))
  else querySelector_text d (label_for_text field_id).

(** The record pushed by [getLoginForms]. *)
Record LoginForm : Type := mkLoginForm {
  form : option Element;
  passwordField : Element;
  usernameField : option Element;
  formAction : option string;
  formMethod : option string
}.

Section Methods.

Variable this : FieldDetector.
Variable window : Global.Window.

(** The values are lowercased and stripped of [[\s_-]]; the entries of
    the exclude list are used as they stand. *)
Definition hasDisqualifyingValue (field : Element) : bool :=
  let values := filter_Boolean [Some (id field); Some (name field); Some (placeholder field)] in
  existsb (fun value =>
    let cleanValue := remove is_separator (toLowerCase value) in
    existsb (fun exclude => includes cleanValue exclude) (passwordFieldExcludeList this))
    values.

Definition isLikePassword (field : Element) : bool :=
  let values := filter_Boolean [Some (id field); Some (name field); Some (placeholder field)] in
  existsb (fun value =>
    let cleanValue := remove is_separator (toLowerCase value) in
    includes cleanValue "password" &&
    negb (existsb (fun exclude => includes cleanValue exclude) (passwordFieldExcludeList this)))
    values.

Definition isPasswordField (field : option Element) : bool :=
  match field with
  | None => false
  | Some field =>
      if disabled field then false
      else if String.eqb (type field) "password" then negb (hasDisqualifyingValue field)
      else if String.eqb (type field) "text" && isLikePassword field
           then negb (hasDisqualifyingValue field)
      else false
  end.

(** The value is lowercased before the camel-case replacement runs. *)
Definition isSearchField (field : Element) : bool :=
  let values := filter_Boolean
    [Some (type field); Some (name field); Some (id field); Some (placeholder field)] in
  existsb (fun value =>
    let words := split (fun c => negb (is_letter c)) (replace_camel (toLowerCase value)) in
    existsb (fun word => has (searchFieldNames this) word) words)
    values.

(** Reads the ambient [document], not a parameter; the selector is built
    from the [id] as it stands. *)
Definition getFieldLabel (field : Element) : completion string :=
  explicit ←
    (if truthy (id field)
     then querySelector_label_for (Global.document window) (id field)
     else mret None);
  match explicit with
  | Some label => mret (or_empty (textContent label))
  | None =>
      match closest sel_label field with
      | Some parentLabel => mret (or_empty (textContent parentLabel))
      | None => mret ""
      end
  end.

(** Reads the ambient [document], not a parameter. *)
Definition getElementIndex (element : Element) : Z :=
  let allElements := querySelectorAll (Global.document window) sel_all in
  indexOf allElements element.

(** The label is looked up while the array of attributes is built. *)
Definition matchesUsernamePattern (field : Element) : completion bool :=
  label ← getFieldLabel field;
  let attributes := filter_Boolean
    [Some (id field); Some (name field); Some (placeholder field);
     Some label; getAttribute field "aria-label"] in
  mret (existsb (fun attr =>
    let cleanAttr := remove (fun c => negb (is_alnum c)) (toLowerCase attr) in
    existsb (fun name =>
      String.eqb cleanAttr (remove (fun c => negb (is_alnum c)) name) ||
      includes cleanAttr (remove (fun c => negb (is_alnum c)) name))
      (usernameFieldNames this))
    attributes).

Definition isUsernameField (field : option Element) (passwordField : option Element)
  : completion bool :=
  match field with
  | None => mret false
  | Some field =>
      if disabled field || has (excludedInputTypes this) (type field) then mret false
      else if negb (array_includes ["text"; "email"; "tel"] (type field)) then mret false
      else if isSearchField field then mret false
      else if match passwordField with
              | Some passwordField =>
                  (getElementIndex field >=? getElementIndex passwordField)%Z
              | None => false
              end then mret false
      else matchesUsernamePattern field
  end.

Definition detectPasswordFields (document : option Document) : list Element :=
  let document := default_arg document (Global.document window) in
  let allInputs := querySelectorAll document sel_input_textarea in
  fold_left (fun passwordFields field =>
    if isPasswordField (Some field) then push passwordFields field else passwordFields)
    allInputs [].

(** An exception in one turn of the loop ends the loop. *)
Definition detectUsernameFields (document : option Document) (passwordField : option Element)
  : completion (list Element) :=
  let document := default_arg document (Global.document window) in
  let allInputs := querySelectorAll document sel_input in
  fold_left (fun usernameFields field =>
    usernameFields ← usernameFields;
    accepted ← isUsernameField (Some field) passwordField;
    mret (if accepted : bool then push usernameFields field else usernameFields))
    allInputs (mret []).

(** [passwordField.closest('form')] is the first statement: a [null]
    argument raises a TypeError there. *)
Definition findUsernameForPassword (passwordField : option Element) (document : option Document)
  : completion (option Element) :=
  let document := default_arg document (Global.document window) in
  match passwordField with
  | None => Throw TypeError
  | Some passwordField =>
      let form := closest sel_form passwordField in
      candidates ← detectUsernameFields (Some document) (Some passwordField);
      let filteredCandidates :=
        match form with
        | Some form =>
            List.filter (fun field => strict_eq_nullable (closest sel_form field) form) candidates
        | None => candidates
        end in
      mret (if (0 <? length filteredCandidates)%nat
            then nth_error filteredCandidates (length filteredCandidates - 1)
            else None)
  end.

Definition getLoginForms (document : option Document) : completion (list LoginForm) :=
  let document := default_arg document (Global.document window) in
  let passwordFields := detectPasswordFields (Some document) in
  fold_left (fun forms passwordField =>
    forms ← forms;
    usernameField ← findUsernameForPassword (Some passwordField) (Some document);
    let form := closest sel_form passwordField in
    mret (push forms {|
      form := form;
      passwordField := passwordField;
      usernameField := usernameField;
      formAction := match form with Some form => Some (action form) | None => None end;
      formMethod := match form with Some form => Some (method form) | None => None end
    |}))
    passwordFields (mret []).

End Methods.

(** ** Notions used by the statements *)

(** The position of an element among all elements of a document: what
    [getElementIndex] computes when that document is the ambient one. *)
Definition documentOrderIndex (doc : Document) (element : Element) : Z :=
  getElementIndex (Global.mkWindow doc) element.

(** The boolean a call returned, [false] when it threw. *)
Definition returned_true (c : completion bool) : bool :=
  match c with
  | Return b => b
  | Throw _ => false
  end.

(** A username candidate for [passwordField]: it passes the username
    classifier relative to [passwordField] and, when [passwordField] has
    an enclosing form, lies in that same form. *)
Definition scopedCandidate (this : FieldDetector) (window : Global.Window)
    (passwordField field : Element) : bool :=
  returned_true (isUsernameField this window (Some field) (Some passwordField)) &&
  match closest sel_form passwordField with
  | Some form => strict_eq_nullable (closest sel_form field) form
  | None => true
  end.

(** Every input of the document has a plain attribute value as [id], so
    that no label lookup for one of them is left to the engine. *)
Definition plain_ids (doc : Document) : bool :=
  forallb (fun field => plain_attribute_value (id field)) (querySelectorAll doc sel_input).

(** Some code unit of the string is in the class. *)
Fixpoint any_unit (cls : ascii -> bool) (s : string) : bool :=
  match s with
  | EmptyString => false
  | String c s' => cls c || any_unit cls s'
  end.

(** The detector with the entries that contain a space, a hyphen or an
    underscore taken out of its exclude list. *)
Definition withoutSeparatedEntries (this : FieldDetector) : FieldDetector := {|
  usernameFieldNames := usernameFieldNames this;
  passwordFieldExcludeList :=
    List.filter (fun exclude => negb (any_unit is_separator exclude))
      (passwordFieldExcludeList this);
  excludedInputTypes := excludedInputTypes this;
  searchFieldNames := searchFieldNames this
|}.

(** The tokenization as the specification words it: a boundary is put
    between a lowercase letter and a following uppercase letter, then the
    value is lowercased and split at every non-letter. *)
Definition spec_search_words (value : string) : list string :=
  split (fun c => negb (is_letter c)) (toLowerCase (replace_camel value)).

(** ** The result array as an object

    [detectPasswordFields] once more, with the objects it touches in a
    store: the detector instance, whose properties it reads, and the
    arrays, of which it creates one, pushes into it and returns it by
    reference. *)

Module Stateful.

Record Store : Type := mkStore {
  instance : FieldDetector;
  arrays : gmap nat (list Element)
}.

(** [[]]: a new array object, at a reference not in use. *)
Definition newArray (store : Store) : nat * Store :=
  let reference := fresh (dom (arrays store)) in
  (reference,
   {| instance := instance store; arrays := <[reference := []]> (arrays store) |}).

(** [array.push(x)] on the object behind a reference. *)
Definition arrayPush (reference : nat) (x : Element) (store : Store) : Store :=
  {| instance := instance store;
     arrays := alter (fun array => push array x) reference (arrays store) |}.

(** [this]: the instance as it is in the store at that moment. *)
Definition readThis (store : Store) : FieldDetector := instance store.

Definition detectPasswordFields (window : Global.Window) (document : option Document)
    (store : Store) : nat * Store :=
  let document := default_arg document (Global.document window) in
  let '(passwordFields, store) := newArray store in
  let allInputs := querySelectorAll document sel_input_textarea in
  let store :=
    fold_left (fun store field =>
      if isPasswordField (readThis store) (Some field)
      then arrayPush passwordFields field store
      else store)
      allInputs store in
  (passwordFields, store).

End Stateful.

(** ** Sample pages *)

(** The sample pages hold plain ids only: their engine is never asked,
    and is one that rejects every text. *)
Definition page (elements : list Element) : Document :=
  mkDocument elements (fun _ => Throw SyntaxError).

Definition plain_element (uid : nat) (localName : string) (parent : option Element)
  : Element :=
  mkElement uid localName "" "" "" "" false ∅ "" "" "" parent.

Definition input_element (uid : nat) (type id name : string) (parent : option Element)
  : Element :=
  mkElement uid "input" type id name "" false ∅ "" "" "" parent.

Definition form_element (uid : nat) (action method : string) : Element :=
  mkElement uid "form" "" "" "" "" false ∅ "" action method None.

Definition label_element (uid : nat) (for_id text : string) (parent : option Element)
  : Element :=
  mkElement uid "label" "" "" "" "" false {[ "for" := for_id ]} text "" "" parent.

(** A login form:
    [<form action=/login method=post>
       <input type=text name=email> <input type=password name=pw> </form>] *)
Definition login_form : Element := form_element 0 "/login" "post".
Definition email_field : Element := input_element 1 "text" "" "email" (Some login_form).
Definition password_field : Element := input_element 2 "password" "" "pw" (Some login_form).
Definition login_page : Document := page [login_form; email_field; password_field].

(** A framed page with one field whose attributes say nothing:
    [<input type=text id=acct>] *)
Definition account_field : Element := input_element 10 "text" "acct" "" None.
Definition account_page : Document := page [account_field].

(** The page that hosts the frames:
    [<html><body> <label for=acct>Email address</label> <iframe> </body></html>] *)
Definition host_html : Element := plain_element 100 "html" None.
Definition host_body : Element := plain_element 101 "body" (Some host_html).
Definition host_label : Element := label_element 102 "acct" "Email address" (Some host_body).
Definition host_iframe : Element := plain_element 103 "iframe" (Some host_body).
Definition host_page : Document := page [host_html; host_body; host_label; host_iframe].

(** Two candidates, at positions 2 and 4, before a password field at 5. *)
Definition signin_form : Element := form_element 20 "/signin" "post".
Definition signin_login : Element := input_element 22 "text" "login" "" (Some signin_form).
Definition signin_email : Element := input_element 24 "email" "" "email" (Some signin_form).
Definition signin_password : Element :=
  input_element 25 "password" "" "pass" (Some signin_form).
Definition signin_page : Document := page
  [signin_form; plain_element 21 "div" (Some signin_form); signin_login;
   plain_element 23 "div" (Some signin_form); signin_email; signin_password].

(** A newsletter box outside the form, then a form with only a password. *)
Definition newsletter_email : Element := input_element 30 "email" "" "email" None.
Definition unlock_form : Element := form_element 31 "/unlock" "post".
Definition unlock_password : Element :=
  input_element 32 "password" "" "pin" (Some unlock_form).
Definition unlock_page : Document := page [newsletter_email; unlock_form; unlock_password].

(** A form that asks for the new password first and the e-mail after it. *)
Definition reset_form : Element := form_element 50 "/reset" "post".
Definition reset_password : Element :=
  input_element 51 "password" "" "new" (Some reset_form).
Definition reset_email : Element := input_element 52 "email" "" "email" (Some reset_form).
Definition reset_page : Document := page [reset_form; reset_password; reset_email].

(** A text field named in camel case after the site search. *)
Definition siteSearch_field : Element := input_element 40 "text" "username" "siteSearch" None.

(** A one-time code field of type password. *)
Definition security_code_field : Element :=
  input_element 41 "password" "" "security_code" None.

(** A text field that asks for a password hint. *)
Definition password_hint_field : Element := input_element 42 "text" "" "password_hint" None.

(** ** Further notions and pages *)

(** The detector with another set of excluded input types. *)
Definition withExcludedInputTypes (this : FieldDetector) (types : gset string)
  : FieldDetector := {|
  usernameFieldNames := usernameFieldNames this;
  passwordFieldExcludeList := passwordFieldExcludeList this;
  excludedInputTypes := types;
  searchFieldNames := searchFieldNames this
|}.

(** The text before a word ends at a word boundary: it is empty or its
    last code unit is not a letter. *)
Definition word_start (before : string) : Prop :=
  before = "" \/
  exists front c, before = String.append front (String c "") /\ is_letter c = false.

(** The text after a word starts at a word boundary: it is empty or its
    first code unit is not a letter. *)
Definition word_end (after : string) : Prop :=
  after = "" \/ exists c rest, after = String c rest /\ is_letter c = false.

(** The value is made of ASCII code units. *)
Definition ascii_only (value : string) : bool := every_unit (in_range 0 127) value.

(** The position of [a] is before the position of [b] in [doc]. *)
Definition precedes (doc : Document) (a b : Element) : Prop :=
  (documentOrderIndex doc a < documentOrderIndex doc b)%Z.

(** A text field for a password, named after the e-mail account. *)
Definition email_password_field : Element :=
  input_element 60 "text" "" "email_password" None.

(** The password hint field, written in capitals with a space. *)
Definition capital_hint_field : Element := input_element 61 "text" "" "PASSWORD HINT" None.

(** A search box inside a navigation bar, named in three words. *)
Definition search_box_field : Element := input_element 62 "text" "user" "site_Search_box" None.

(** A sign-up form: e-mail, password, and the password again. *)
Definition signup_form : Element := form_element 70 "/signup" "post".
Definition signup_email : Element := input_element 71 "email" "" "email" (Some signup_form).
Definition signup_password : Element :=
  input_element 72 "password" "" "pw" (Some signup_form).
Definition signup_confirm : Element :=
  input_element 73 "password" "" "pw2" (Some signup_form).
Definition signup_page : Document :=
  page [signup_form; signup_email; signup_password; signup_confirm].

(** ** Loops that push into an array *)

Section Loops.

Context {A : Type}.

Lemma fold_push_filter (keep : A -> bool) (l acc : list A) :
  fold_left (fun array x => if keep x then push array x else array) l acc
  = acc ++ List.filter keep l.
Proof.
  revert acc; induction l as [|x l IH]; intros acc; simpl.
  - now rewrite app_nil_r.
  - rewrite IH. destruct (keep x); [|reflexivity].
    unfold push. now rewrite <- app_assoc.
Qed.

Lemma filter_filter (f g : A -> bool) (l : list A) :
  List.filter g (List.filter f l) = List.filter (fun x => f x && g x) l.
Proof.
  induction l as [|x l IH]; simpl; [reflexivity|].
  destruct (f x); simpl; [|exact IH].
  destruct (g x); now rewrite IH.
Qed.

(** [array[array.length - 1]] is the last element. *)
Lemma nth_error_last (l : list A) (x : A) :
  nth_error (l ++ [x]) (length (l ++ [x]) - 1) = Some x.
Proof.
  rewrite length_app; simpl.
  replace (length l + 1 - 1)%nat with (length l) by lia.
  rewrite nth_error_app2 by lia.
  now rewrite Nat.sub_diag.
Qed.

(** Where the last element kept by a filter sits in the filtered list. *)
Lemma filter_last_split (keep : A -> bool) (l front : list A) (x : A) :
  List.filter keep l = front ++ [x] ->
  exists a b, l = a ++ x :: b /\ List.filter keep a = front /\ List.filter keep b = [].
Proof.
  revert front; induction l as [|y l IH]; intros front H; simpl in H.
  - destruct front; discriminate.
  - destruct (keep y) eqn:Hy.
    + destruct front as [|z front]; simpl in H.
      * injection H as -> Hnil. exists [], l. auto.
      * injection H as -> Hrest.
        destruct (IH _ Hrest) as (a & b & -> & Ha & Hb).
        exists (z :: a), b. simpl. rewrite Hy, Ha. auto.
    + destruct (IH _ H) as (a & b & -> & Ha & Hb).
      exists (y :: a), b. simpl. rewrite Hy. auto.
Qed.

Lemma existsb_filter_irrelevant (g keep : A -> bool) (l : list A) :
  (forall x, keep x = false -> g x = false) ->
  existsb g l = existsb g (List.filter keep l).
Proof.
  intros H; induction l as [|x l IH]; simpl; [reflexivity|].
  destruct (keep x) eqn:Hk; simpl; rewrite IH; [reflexivity|].
  now rewrite (H x Hk).
Qed.

Lemma existsb_ext_in (g h : A -> bool) (l : list A) :
  (forall x, In x l -> g x = h x) -> existsb g l = existsb h l.
Proof.
  induction l as [|x l IH]; intros H; simpl; [reflexivity|].
  rewrite (H x) by now left.
  rewrite IH; [reflexivity|].
  intros y Hy. apply H. now right.
Qed.

End Loops.

Lemma detectPasswordFields_filter this window doc :
  detectPasswordFields this window (Some doc)
  = List.filter (fun field => isPasswordField this (Some field))
      (querySelectorAll doc sel_input_textarea).
Proof. unfold detectPasswordFields. now rewrite fold_push_filter. Qed.

(** ** Loops that may throw *)

Lemma fold_thrown {A B} (body : completion B -> A -> completion B) (l : list A)
    (e : JsError) :
  (forall x, body (Throw e) x = Throw e) -> fold_left body l (Throw e) = Throw e.
Proof.
  intros Hbody. induction l as [|x l IH]; simpl; [reflexivity|]. now rewrite Hbody.
Qed.

Section ThrowingLoops.

Context {A B C : Type}.

(** A loop that pushes the elements a test accepts: it returns when the
    test returns at every element, and then it has filtered. *)
Lemma filter_loop_step (test : A -> completion bool) (acc : list A) (x : A) :
  (Return acc ≫= fun kept => test x ≫= fun accepted : bool =>
     mret (if accepted then push kept x else kept))
  = match test x with
    | Return b => Return (if b then push acc x else acc)
    | Throw e => Throw e
    end.
Proof. destruct (test x); reflexivity. Qed.

Lemma filter_loop_inv (test : A -> completion bool) (l acc r : list A) :
  fold_left (fun kept x =>
      kept ← kept; accepted ← test x;
      mret (if accepted : bool then push kept x else kept))
    l (Return acc) = Return r ->
  (forall x, In x l -> exists b, test x = Return b) /\
  r = acc ++ List.filter (fun x => returned_true (test x)) l.
Proof.
  revert acc; induction l as [|x l IH]; intros acc H; cbn [fold_left] in H.
  - injection H as <-. split; [intros x []|now rewrite app_nil_r].
  - rewrite filter_loop_step in H. destruct (test x) as [b|e] eqn:Hx; cbv iota in H.
    + apply IH in H as [Hall ->]. split.
      * intros y [<-|Hy]; [now exists b|now apply Hall].
      * cbn [List.filter]. rewrite Hx. cbn [returned_true].
        destruct b; [|reflexivity]. unfold push. now rewrite <- app_assoc.
    + rewrite fold_thrown in H by reflexivity. discriminate.
Qed.

Lemma filter_loop_returns (test : A -> completion bool) (l acc : list A) :
  (forall x, In x l -> exists b, test x = Return b) ->
  fold_left (fun kept x =>
      kept ← kept; accepted ← test x;
      mret (if accepted : bool then push kept x else kept))
    l (Return acc)
  = Return (acc ++ List.filter (fun x => returned_true (test x)) l).
Proof.
  revert acc; induction l as [|x l IH]; intros acc Hall; cbn [fold_left].
  - now rewrite app_nil_r.
  - rewrite filter_loop_step. destruct (Hall x (or_introl eq_refl)) as [b Hx].
    rewrite Hx. cbv iota.
    rewrite IH by (intros y Hy; apply Hall; now right).
    cbn [List.filter]. rewrite Hx. cbn [returned_true].
    destruct b; [|reflexivity]. unfold push. now rewrite <- app_assoc.
Qed.

(** A loop that pushes one value made at each element. *)
Lemma collect_loop_step (make : A -> completion B) (pack : A -> B -> C)
    (acc : list C) (x : A) :
  (Return acc ≫= fun collected => make x ≫= fun y => mret (push collected (pack x y)))
  = match make x with
    | Return y => Return (push acc (pack x y))
    | Throw e => Throw e
    end.
Proof. destruct (make x); reflexivity. Qed.

Lemma collect_loop_inv (make : A -> completion B) (pack : A -> B -> C) (made : A -> B)
    (l : list A) (acc r : list C) :
  (forall x y, make x = Return y -> y = made x) ->
  fold_left (fun collected x =>
      collected ← collected; y ← make x; mret (push collected (pack x y)))
    l (Return acc) = Return r ->
  (forall x, In x l -> make x = Return (made x)) /\
  r = acc ++ map (fun x => pack x (made x)) l.
Proof.
  intros Hmade. revert acc; induction l as [|x l IH]; intros acc H; cbn [fold_left] in H.
  - injection H as <-. split; [intros x []|now rewrite app_nil_r].
  - rewrite collect_loop_step in H. destruct (make x) as [y|e] eqn:Hx; cbv iota in H.
    + pose proof (Hmade x y Hx) as Hy. subst y.
      apply IH in H as [Hall ->]. split.
      * intros z [<-|Hz]; [exact Hx|now apply Hall].
      * cbn [map]. unfold push. now rewrite <- app_assoc.
    + rewrite fold_thrown in H by reflexivity. discriminate.
Qed.

Lemma collect_loop_returns (make : A -> completion B) (pack : A -> B -> C) (made : A -> B)
    (l : list A) (acc : list C) :
  (forall x, In x l -> make x = Return (made x)) ->
  fold_left (fun collected x =>
      collected ← collected; y ← make x; mret (push collected (pack x y)))
    l (Return acc)
  = Return (acc ++ map (fun x => pack x (made x)) l).
Proof.
  revert acc; induction l as [|x l IH]; intros acc Hall; cbn [fold_left].
  - now rewrite app_nil_r.
  - rewrite collect_loop_step, (Hall x (or_introl eq_refl)). cbv iota.
    rewrite IH by (intros y Hy; apply Hall; now right).
    cbn [map]. unfold push. now rewrite <- app_assoc.
Qed.

End ThrowingLoops.

Lemma detectUsernameFields_inv this window doc passwordField fields :
  detectUsernameFields this window (Some doc) passwordField = Return fields ->
  (forall field, In field (querySelectorAll doc sel_input) ->
     exists b, isUsernameField this window (Some field) passwordField = Return b) /\
  fields = List.filter
    (fun field => returned_true (isUsernameField this window (Some field) passwordField))
    (querySelectorAll doc sel_input).
Proof. unfold detectUsernameFields. intros H. now apply filter_loop_inv in H. Qed.

Lemma detectUsernameFields_returns this window doc passwordField :
  (forall field, In field (querySelectorAll doc sel_input) ->
     exists b, isUsernameField this window (Some field) passwordField = Return b) ->
  detectUsernameFields this window (Some doc) passwordField
  = Return (List.filter
      (fun field => returned_true (isUsernameField this window (Some field) passwordField))
      (querySelectorAll doc sel_input)).
Proof. unfold detectUsernameFields. intros H. now rewrite filter_loop_returns. Qed.

(** ** Positions in a document *)

Lemma strict_eq_refl (e : Element) : strict_eq e e = true.
Proof. unfold strict_eq. apply Nat.eqb_refl. Qed.

Lemma strict_eq_uid (a b : Element) : strict_eq a b = true <-> uid a = uid b.
Proof. unfold strict_eq. apply Nat.eqb_eq. Qed.

Lemma indexOf_from_found (array : list Element) (x : Element) (i : Z) :
  In (uid x) (map uid array) ->
  (i <= indexOf_from array x i < i + Z.of_nat (length array))%Z.
Proof.
  revert i; induction array as [|y array IH]; intros i Hin; simpl in *.
  - contradiction.
  - destruct (strict_eq y x) eqn:E.
    + lia.
    + destruct Hin as [Hy|Hin].
      * apply strict_eq_uid in Hy. congruence.
      * specialize (IH (i + 1)%Z Hin). lia.
Qed.

Lemma indexOf_from_skip (front back : list Element) (x : Element) (i : Z) :
  ~ In (uid x) (map uid front) ->
  indexOf_from (front ++ back) x i = indexOf_from back x (i + Z.of_nat (length front))%Z.
Proof.
  revert i; induction front as [|y front IH]; intros i Hnin; simpl in *.
  - f_equal. lia.
  - destruct (strict_eq y x) eqn:E.
    + apply strict_eq_uid in E. tauto.
    + rewrite IH by tauto. f_equal. lia.
Qed.

Lemma indexOf_from_front (front back : list Element) (x : Element) (i : Z) :
  In (uid x) (map uid front) ->
  indexOf_from (front ++ back) x i = indexOf_from front x i.
Proof.
  revert i; induction front as [|y front IH]; intros i Hin; simpl in *.
  - contradiction.
  - destruct (strict_eq y x) eqn:E; [reflexivity|].
    destruct Hin as [Hy|Hin].
    + apply strict_eq_uid in Hy. congruence.
    + now apply IH.
Qed.

Lemma querySelectorAll_all (doc : Document) :
  querySelectorAll doc sel_all = elements doc.
Proof.
  unfold querySelectorAll, sel_all.
  induction (elements doc) as [|e l IH]; simpl; [reflexivity|].
  f_equal. exact IH.
Qed.

Lemma documentOrderIndex_indexOf (doc : Document) (e : Element) :
  documentOrderIndex doc e = indexOf (elements doc) e.
Proof.
  unfold documentOrderIndex, getElementIndex. simpl. now rewrite querySelectorAll_all.
Qed.

(** In a document where [x] is the last element kept by a filter, every
    other kept element sits strictly before [x]. *)
Lemma last_kept_is_greatest (doc : Document) (keep : Element -> bool)
    (front : list Element) (x c : Element) :
  wf_document doc ->
  List.filter keep (elements doc) = front ++ [x] ->
  In c front ->
  (documentOrderIndex doc c < documentOrderIndex doc x)%Z.
Proof.
  intros Hwf Hfilter Hc.
  rewrite !documentOrderIndex_indexOf. unfold indexOf.
  destruct (filter_last_split _ _ _ _ Hfilter) as (a & b & Hl & Ha & Hb).
  unfold wf_document in Hwf. rewrite Hl in *.
  rewrite map_app in Hwf. simpl in Hwf.
  apply NoDup_app in Hwf as (_ & Hdisjoint & _).
  assert (Hxa : ~ In (uid x) (map uid a)).
  { intros H. apply list_elem_of_In in H. apply (Hdisjoint _ H). constructor. }
  assert (Hca : In (uid c) (map uid a)).
  { apply in_map. rewrite <- Ha in Hc. now apply filter_In in Hc as [Hc _]. }
  rewrite (indexOf_from_front a (x :: b) c 0 Hca).
  rewrite (indexOf_from_skip a (x :: b) x 0 Hxa).
  simpl. rewrite strict_eq_refl.
  pose proof (indexOf_from_found a c 0 Hca). lia.
Qed.

(** ** What [findUsernameForPassword] returns for a present field *)

Lemma last_by_index {A} (l : list A) :
  (if (0 <? length l)%nat then nth_error l (length l - 1) else None) = last l.
Proof.
  destruct l as [|x l _] using rev_ind; [reflexivity|].
  rewrite nth_error_last, last_snoc.
  replace (0 <? length (l ++ [x]))%nat with true; [reflexivity|].
  symmetry. apply Nat.ltb_lt. rewrite length_app. simpl. lia.
Qed.

(** A plain [id] leaves nothing to the engine: the label lookup
    returns. *)
Lemma getFieldLabel_plain window field :
  plain_attribute_value (id field) = true ->
  exists label, getFieldLabel window field = Return label.
Proof.
  intros Hplain. unfold getFieldLabel, querySelector_label_for. rewrite Hplain.
  destruct (truthy (id field)).
  - destruct (querySelector _ _); [eexists; reflexivity|].
    destruct (closest sel_label field); eexists; reflexivity.
  - destruct (closest sel_label field); eexists; reflexivity.
Qed.

Lemma isUsernameField_plain this window field passwordField :
  plain_attribute_value (id field) = true ->
  exists b, isUsernameField this window (Some field) passwordField = Return b.
Proof.
  intros Hplain. unfold isUsernameField.
  destruct (disabled field || has _ _); [now exists false|].
  destruct (negb _); [now exists false|].
  destruct (isSearchField this field); [now exists false|].
  destruct (match passwordField with Some _ => _ | None => false end); [now exists false|].
  unfold matchesUsernamePattern.
  destruct (getFieldLabel_plain window field Hplain) as [label ->].
  eexists. reflexivity.
Qed.

Lemma plain_ids_return this window doc passwordField :
  plain_ids doc = true ->
  forall field, In field (querySelectorAll doc sel_input) ->
    exists b, isUsernameField this window (Some field) passwordField = Return b.
Proof.
  intros Hplain field Hin. apply isUsernameField_plain.
  unfold plain_ids in Hplain. rewrite forallb_forall in Hplain. now apply Hplain.
Qed.

Lemma scoped_filter this window doc p :
  match closest sel_form p with
  | Some form =>
      List.filter (fun field => strict_eq_nullable (closest sel_form field) form)
        (List.filter
           (fun field => returned_true (isUsernameField this window (Some field) (Some p)))
           (querySelectorAll doc sel_input))
  | None =>
      List.filter
        (fun field => returned_true (isUsernameField this window (Some field) (Some p)))
        (querySelectorAll doc sel_input)
  end
  = List.filter (scopedCandidate this window p) (querySelectorAll doc sel_input).
Proof.
  unfold scopedCandidate. destruct (closest sel_form p) as [form|].
  - apply filter_filter.
  - apply filter_ext. intros u. now rewrite andb_true_r.
Qed.

Lemma findUsernameForPassword_inv this window doc p r :
  findUsernameForPassword this window (Some p) (Some doc) = Return r ->
  (forall field, In field (querySelectorAll doc sel_input) ->
     exists b, isUsernameField this window (Some field) (Some p) = Return b) /\
  r = last (List.filter (scopedCandidate this window p) (querySelectorAll doc sel_input)).
Proof.
  unfold findUsernameForPassword. cbn [default_arg].
  destruct (detectUsernameFields this window (Some doc) (Some p)) as [fields|e] eqn:E;
    [|discriminate].
  apply detectUsernameFields_inv in E as [Hall ->].
  cbn [mbind completion_bind]. rewrite last_by_index, scoped_filter.
  intros H. injection H as <-. now split.
Qed.

Lemma findUsernameForPassword_returns this window doc p :
  (forall field, In field (querySelectorAll doc sel_input) ->
     exists b, isUsernameField this window (Some field) (Some p) = Return b) ->
  findUsernameForPassword this window (Some p) (Some doc)
  = Return (last (List.filter (scopedCandidate this window p)
                    (querySelectorAll doc sel_input))).
Proof.
  intros Hall. unfold findUsernameForPassword. cbn [default_arg].
  rewrite (detectUsernameFields_returns _ _ _ _ Hall).
  cbn [mbind completion_bind]. now rewrite last_by_index, scoped_filter.
Qed.

Lemma getLoginForms_inv this window doc forms :
  getLoginForms this window (Some doc) = Return forms ->
  (forall p, In p (detectPasswordFields this window (Some doc)) ->
     findUsernameForPassword this window (Some p) (Some doc)
     = Return (last (List.filter (scopedCandidate this window p)
                       (querySelectorAll doc sel_input)))) /\
  forms = map (fun p =>
      let form := closest sel_form p in
      {| form := form;
         passwordField := p;
         usernameField :=
           last (List.filter (scopedCandidate this window p) (querySelectorAll doc sel_input));
         formAction := match form with Some form => Some (action form) | None => None end;
         formMethod := match form with Some form => Some (method form) | None => None end |})
      (detectPasswordFields this window (Some doc)).
Proof.
  unfold getLoginForms. cbn [default_arg]. intros H.
  apply (collect_loop_inv
           (fun p => findUsernameForPassword this window (Some p) (Some doc))
           (fun p u =>
              {| form := closest sel_form p;
                 passwordField := p;
                 usernameField := u;
                 formAction := match closest sel_form p with
                               | Some form => Some (action form) | None => None end;
                 formMethod := match closest sel_form p with
                               | Some form => Some (method form) | None => None end |})
           (fun p => last (List.filter (scopedCandidate this window p)
                             (querySelectorAll doc sel_input)))) in H.
  - exact H.
  - intros p u Hret. now apply findUsernameForPassword_inv in Hret as [_ ->].
Qed.

Lemma getLoginForms_returns this window doc :
  plain_ids doc = true ->
  getLoginForms this window (Some doc)
  = Return (map (fun p =>
      let form := closest sel_form p in
      {| form := form;
         passwordField := p;
         usernameField :=
           last (List.filter (scopedCandidate this window p) (querySelectorAll doc sel_input));
         formAction := match form with Some form => Some (action form) | None => None end;
         formMethod := match form with Some form => Some (method form) | None => None end |})
      (detectPasswordFields this window (Some doc))).
Proof.
  intros Hplain. unfold getLoginForms. cbn [default_arg].
  exact (collect_loop_returns
           (fun p => findUsernameForPassword this window (Some p) (Some doc))
           (fun p u =>
              {| form := closest sel_form p;
                 passwordField := p;
                 usernameField := u;
                 formAction := match closest sel_form p with
                               | Some form => Some (action form) | None => None end;
                 formMethod := match closest sel_form p with
                               | Some form => Some (method form) | None => None end |})
           (fun p => last (List.filter (scopedCandidate this window p)
                             (querySelectorAll doc sel_input)))
           (detectPasswordFields this window (Some doc)) []
           (fun p _ => findUsernameForPassword_returns this window doc p
                         (plain_ids_return this window doc (Some p) Hplain))).
Qed.

(** ** Substrings and code units *)

Lemma startsWith_has_unit (s p : string) (c : ascii) :
  startsWith s p = true -> has_unit c p = true -> has_unit c s = true.
Proof.
  revert s; induction p as [|a p IH]; intros s Hstart Hc; simpl in Hc.
  - discriminate.
  - destruct s as [|b s]; simpl in Hstart; [discriminate|].
    apply andb_true_iff in Hstart as [Hab Hrest].
    apply Ascii.eqb_eq in Hab; subst b. simpl.
    apply orb_true_iff in Hc as [Hc|Hc].
    + now rewrite Hc.
    + rewrite (IH s Hrest Hc). apply orb_true_r.
Qed.

Lemma includes_has_unit (s sub : string) (c : ascii) :
  includes s sub = true -> has_unit c sub = true -> has_unit c s = true.
Proof.
  induction s as [|b s IH]; intros Hinc Hc; simpl in Hinc.
  - destruct sub; simpl in *; discriminate.
  - apply orb_true_iff in Hinc as [Hstart|Hinc].
    + exact (startsWith_has_unit (String b s) sub c Hstart Hc).
    + simpl. rewrite (IH Hinc Hc). apply orb_true_r.
Qed.

Lemma has_unit_remove (cls : ascii -> bool) (s : string) (c : ascii) :
  cls c = true -> has_unit c (remove cls s) = false.
Proof.
  intros Hc; induction s as [|d s IH]; simpl; [reflexivity|].
  destruct (cls d) eqn:Hd; [exact IH|]. simpl. rewrite IH, orb_false_r.
  apply Ascii.eqb_neq. congruence.
Qed.

Lemma any_unit_has_unit (cls : ascii -> bool) (s : string) :
  any_unit cls s = true -> exists c, cls c = true /\ has_unit c s = true.
Proof.
  induction s as [|d s IH]; simpl; [discriminate|].
  intros H. apply orb_true_iff in H as [H|H].
  - exists d. now rewrite Ascii.eqb_refl.
  - destruct (IH H) as (c & Hc & Hin). exists c. rewrite Hin. now rewrite orb_true_r.
Qed.

(** No uppercase letter is left after lowercasing, so the camel-case
    pattern finds nothing in a lowercased value. *)
Lemma is_upper_toLowerCase_unit (c : ascii) : is_upper (toLowerCase_unit c) = false.
Proof. destruct c as [[] [] [] [] [] [] [] []]; reflexivity. Qed.

Lemma replace_camel_toLowerCase (s : string) :
  replace_camel (toLowerCase s) = toLowerCase s.
Proof.
  induction s as [|c s IH]; [reflexivity|].
  cbn [toLowerCase]. destruct s as [|d s]; [reflexivity|].
  cbn [toLowerCase replace_camel] in *.
  rewrite is_upper_toLowerCase_unit, andb_false_r.
  f_equal. exact IH.
Qed.

(** A separator-stripped value includes no string that has a separator. *)
Lemma separated_entry_never_included (value entry : string) :
  any_unit is_separator entry = true ->
  includes (remove is_separator (toLowerCase value)) entry = false.
Proof.
  intros Hsep. destruct (any_unit_has_unit _ _ Hsep) as (c & Hc & Hin).
  destruct (includes _ entry) eqn:Hinc; [|reflexivity].
  pose proof (includes_has_unit _ _ _ Hinc Hin) as Hbad.
  now rewrite (has_unit_remove is_separator _ c Hc) in Hbad.
Qed.

Lemma filter_Boolean_In (s : string) (l : list (option string)) :
  In (Some s) l -> truthy s = true -> In s (filter_Boolean l).
Proof.
  intros Hin Hs; induction l as [|[t|] l IH]; simpl in *.
  - contradiction.
  - destruct Hin as [Heq|Hin].
    + injection Heq as ->. rewrite Hs. now left.
    + destruct (truthy t); [right|]; auto.
  - destruct Hin as [Heq|Hin]; [discriminate|auto].
Qed.

(** ** The classifiers *)

Lemma isSearchField_rejected this window field passwordField :
  isSearchField this field = true ->
  isUsernameField this window (Some field) passwordField = Return false.
Proof.
  intros H. unfold isUsernameField. rewrite H.
  destruct (disabled field || has _ _); [reflexivity|].
  now destruct (negb _).
Qed.

Lemma isUsernameField_precedes this window field passwordField :
  isUsernameField this window (Some field) (Some passwordField) = Return true ->
  (getElementIndex window field < getElementIndex window passwordField)%Z.
Proof.
  unfold isUsernameField.
  destruct (disabled field || has _ _); [discriminate|].
  destruct (negb _); [discriminate|].
  destruct (isSearchField this field); [discriminate|].
  destruct (getElementIndex window field >=? getElementIndex window passwordField)%Z eqn:E;
    [discriminate|].
  intros _. rewrite Z.geb_leb in E. apply Z.leb_gt in E. exact E.
Qed.

Lemma password_hint_disqualifies field :
  name field = "password_hint" -> hasDisqualifyingValue constructor field = true.
Proof.
  intros Hname. unfold hasDisqualifyingValue.
  apply existsb_exists. exists "password_hint". split.
  - apply filter_Boolean_In; [|reflexivity].
    rewrite <- Hname. simpl. auto.
  - vm_compute. reflexivity.
Qed.

Lemma hasDisqualifyingValue_withoutSeparatedEntries this field :
  hasDisqualifyingValue this field = hasDisqualifyingValue (withoutSeparatedEntries this) field.
Proof.
  unfold hasDisqualifyingValue. apply existsb_ext_in. intros value _.
  cbn [passwordFieldExcludeList withoutSeparatedEntries].
  apply existsb_filter_irrelevant. intros entry Hentry.
  apply negb_false_iff in Hentry.
  now apply separated_entry_never_included.
Qed.

(** ** The claims *)

(** C1, evaluated on the code.  With [login_page] supplied explicitly to
    each entry point, the results change with the ambient document:
    [getElementIndex] and [getFieldLabel] read the global [document].
    When the ambient document is the supplied one the username field is
    found; when it is the hosting page, both positions are [-1] and it
    is not.  In the same way the label of the hosting page names a field
    of the supplied [account_page]. *)
Theorem C1_ambient_document_is_read :
  let here := Global.mkWindow login_page in
  let elsewhere := Global.mkWindow host_page in
  detectUsernameFields constructor here (Some login_page) (Some password_field)
    = Return [email_field] /\
  detectUsernameFields constructor elsewhere (Some login_page) (Some password_field)
    = Return [] /\
  findUsernameForPassword constructor here (Some password_field) (Some login_page)
    = Return (Some email_field) /\
  findUsernameForPassword constructor elsewhere (Some password_field) (Some login_page)
    = Return None /\
  (exists r, getLoginForms constructor here (Some login_page) = Return [r] /\
             usernameField r = Some email_field) /\
  (exists r, getLoginForms constructor elsewhere (Some login_page) = Return [r] /\
             usernameField r = None) /\
  detectUsernameFields constructor elsewhere (Some account_page) None
    = Return [account_field] /\
  detectUsernameFields constructor (Global.mkWindow account_page) (Some account_page) None
    = Return [].
Proof.
  cbv zeta. repeat split; try (vm_compute; reflexivity).
  - eexists. split; vm_compute; reflexivity.
  - eexists. split; vm_compute; reflexivity.
Qed.

(** C2, evaluated on the code.  The words the specification's
    tokenization gives for the name "siteSearch" contain "search", yet
    [isSearchField] lowercases the value before it looks for a lowercase
    letter followed by an uppercase one, finds the single word
    "sitesearch", and [isUsernameField] accepts the field.  The
    replacement changes no lowercased value at all. *)
Theorem C2_camel_case_search_name_accepted :
  type siteSearch_field = "text" /\
  name siteSearch_field = "siteSearch" /\
  spec_search_words (name siteSearch_field) = ["site"; "search"] /\
  split (fun c => negb (is_letter c)) (replace_camel (toLowerCase (name siteSearch_field)))
    = ["sitesearch"] /\
  (forall value, replace_camel (toLowerCase value) = toLowerCase value) /\
  isSearchField constructor siteSearch_field = false /\
  isUsernameField constructor (Global.mkWindow host_page) (Some siteSearch_field) None
  = Return true.
Proof.
  repeat split; try (vm_compute; reflexivity).
  exact replace_camel_toLowerCase.
Qed.

(** C3, as the claim states it, fails: with an absent [passwordField],
    [findUsernameForPassword] does not return none. *)
Lemma C3_absent_password_field_not_none :
  findUsernameForPassword constructor (Global.mkWindow login_page) None (Some login_page)
  <> Return None.
Proof. vm_compute. discriminate. Qed.

(** C3, amended.  For an absent field [isPasswordField] and
    [isUsernameField] return false; [findUsernameForPassword] reads
    [passwordField.closest] before any check and raises a TypeError when
    [passwordField] is absent. *)
Theorem C3_absent_inputs (this : FieldDetector) (window : Global.Window)
    (passwordField : option Element) (document : option Document) :
  isPasswordField this None = false /\
  isUsernameField this window None passwordField = Return false /\
  findUsernameForPassword this window None document = Throw TypeError.
Proof. repeat split. Qed.



(** C5.  When the password field has an enclosing form, a field that
    [findUsernameForPassword] returns has that same form object as its
    enclosing form, so a field outside the form is never returned,
    whatever the classifier says of it; and the call does return, a field
    or none, when every input of the document has a plain [id]. *)
Theorem C5_same_form_only (this : FieldDetector) (window : Global.Window)
    (doc : Document) (p form : Element) :
  closest sel_form p = Some form ->
  (forall u, findUsernameForPassword this window (Some p) (Some doc) = Return (Some u) ->
     strict_eq_nullable (closest sel_form u) form = true) /\
  (forall u, strict_eq_nullable (closest sel_form u) form = false ->
     findUsernameForPassword this window (Some p) (Some doc) <> Return (Some u)) /\
  (plain_ids doc = true ->
   exists r, findUsernameForPassword this window (Some p) (Some doc) = Return r).
Proof.
  intros Hform.
  assert (Hin : forall u,
    findUsernameForPassword this window (Some p) (Some doc) = Return (Some u) ->
    strict_eq_nullable (closest sel_form u) form = true).
  { intros u Hret. apply findUsernameForPassword_inv in Hret as [_ Hlast].
    symmetry in Hlast. apply last_Some in Hlast as (front & Hsplit).
    assert (Hu : In u (List.filter (scopedCandidate this window p)
                         (querySelectorAll doc sel_input))).
    { rewrite Hsplit. apply in_or_app. right. now left. }
    apply filter_In in Hu as [_ Hu]. unfold scopedCandidate in Hu.
    rewrite Hform in Hu. now apply andb_true_iff in Hu as [_ Hu]. }
  split; [exact Hin|]. split.
  - intros u Hout Hret. apply Hin in Hret. congruence.
  - intros Hplain. eexists.
    exact (findUsernameForPassword_returns this window doc p
             (plain_ids_return this window doc (Some p) Hplain)).
Qed.

(** C5 at the unlock page: the newsletter field matches the username
    pattern and precedes the password field, but lies outside the form,
    and none is returned. *)
Lemma C5_witness :
  closest sel_form unlock_password = Some unlock_form /\
  isUsernameField constructor (Global.mkWindow unlock_page)
    (Some newsletter_email) (Some unlock_password) = Return true /\
  strict_eq_nullable (closest sel_form newsletter_email) unlock_form = false /\
  findUsernameForPassword constructor (Global.mkWindow unlock_page)
    (Some unlock_password) (Some unlock_page) = Return None /\
  findUsernameForPassword constructor (Global.mkWindow unlock_page)
    (Some unlock_password) (Some unlock_page) <> Return (Some newsletter_email).
Proof.
  assert (Hform : closest sel_form unlock_password = Some unlock_form).
  { reflexivity. }
  assert (Hout : strict_eq_nullable (closest sel_form newsletter_email) unlock_form = false).
  { reflexivity. }
  split; [exact Hform|]. split; [vm_compute; reflexivity|]. split; [exact Hout|].
  split; [vm_compute; reflexivity|].
  exact (proj1 (proj2 (C5_same_form_only constructor (Global.mkWindow unlock_page)
                         unlock_page unlock_password unlock_form Hform))
           newsletter_email Hout).
Defined.

(** C6.  A field whose position is not strictly less than the position
    of the supplied password field is not a username field. *)
Theorem C6_username_precedes_password (this : FieldDetector) (window : Global.Window)
    (field passwordField : Element) :
  ~ (getElementIndex window field < getElementIndex window passwordField)%Z ->
  isUsernameField this window (Some field) (Some passwordField) = Return false.
Proof.
  intros Hnot. unfold isUsernameField.
  destruct (disabled field || has _ _); [reflexivity|].
  destruct (negb _); [reflexivity|].
  destruct (isSearchField this field); [reflexivity|].
  replace (getElementIndex window field >=? getElementIndex window passwordField)%Z
    with true; [reflexivity|].
  symmetry. rewrite Z.geb_leb. apply Z.leb_le. lia.
Qed.

(** C6 at the reset page: the e-mail field is a username field on its
    own, but it sits at position 2, after the password field at 1. *)
Lemma C6_witness :
  isUsernameField constructor (Global.mkWindow reset_page) (Some reset_email) None
  = Return true /\
  ~ (getElementIndex (Global.mkWindow reset_page) reset_email
     < getElementIndex (Global.mkWindow reset_page) reset_password)%Z /\
  isUsernameField constructor (Global.mkWindow reset_page)
    (Some reset_email) (Some reset_password) = Return false.
Proof.
  assert (H : ~ (getElementIndex (Global.mkWindow reset_page) reset_email
                 < getElementIndex (Global.mkWindow reset_page) reset_password)%Z).
  { vm_compute. discriminate. }
  split; [vm_compute; reflexivity|]. split; [exact H|].
  exact (C6_username_precedes_password constructor (Global.mkWindow reset_page)
           reset_email reset_password H).
Defined.

(** C7.  A field of type "text" named "password_hint" is not a password
    field, whatever its other attributes: the stripped name
    "passwordhint" includes "password" and also the exclude entry "hint",
    which disqualifies the field. *)
Theorem C7_password_hint_rejected (field : Element) :
  type field = "text" ->
  name field = "password_hint" ->
  includes (remove is_separator (toLowerCase (name field))) "password" = true /\
  includes (remove is_separator (toLowerCase (name field))) "hint" = true /\
  In "hint" (passwordFieldExcludeList constructor) /\
  hasDisqualifyingValue constructor field = true /\
  isPasswordField constructor (Some field) = false.
Proof.
  intros Htype Hname.
  pose proof (password_hint_disqualifies field Hname) as Hdisq.
  rewrite Hname.
  split; [reflexivity|]. split; [reflexivity|].
  split; [simpl; auto|]. split; [exact Hdisq|].
  unfold isPasswordField. rewrite Htype, Hdisq.
  destruct (disabled field), (isLikePassword constructor field); reflexivity.
Qed.

Lemma C7_witness :
  type password_hint_field = "text" /\ name password_hint_field = "password_hint" /\
  isPasswordField constructor (Some password_hint_field) = false.
Proof.
  split; [reflexivity|]. split; [reflexivity|].
  apply (C7_password_hint_rejected password_hint_field); reflexivity.
Defined.

(** C8, evaluated on the code.  Whenever [getLoginForms] returns, its
    records are the detected password fields one for one, each a field
    that satisfies [isPasswordField].  But the username field is left
    absent although a valid preceding candidate exists: with [login_page]
    supplied and the hosting page as ambient document, the e-mail field
    is an input of the supplied document, is a username field, precedes
    the password field in the supplied document and lies in the same
    form, and the record has no username field; with the supplied page
    as ambient document the two are paired. *)
Theorem C8_preceding_candidate_left_unpaired :
  (forall this window doc forms,
     getLoginForms this window (Some doc) = Return forms ->
     map passwordField forms = detectPasswordFields this window (Some doc) /\
     forall record, In record forms ->
       isPasswordField this (Some (passwordField record)) = true) /\
  In email_field (querySelectorAll login_page sel_input) /\
  isUsernameField constructor (Global.mkWindow host_page) (Some email_field) None
    = Return true /\
  (documentOrderIndex login_page email_field
   < documentOrderIndex login_page password_field)%Z /\
  closest sel_form email_field = closest sel_form password_field /\
  getLoginForms constructor (Global.mkWindow host_page) (Some login_page)
    = Return [mkLoginForm (Some login_form) password_field None
                (Some "/login") (Some "post")] /\
  getLoginForms constructor (Global.mkWindow login_page) (Some login_page)
    = Return [mkLoginForm (Some login_form) password_field (Some email_field)
                (Some "/login") (Some "post")].
Proof.
  split.
  - intros this window doc forms H. apply getLoginForms_inv in H as [_ ->]. split.
    + rewrite map_map. cbn [passwordField]. apply map_id.
    + intros record Hin. apply in_map_iff in Hin as (p & <- & Hp). cbn [passwordField].
      rewrite detectPasswordFields_filter in Hp. now apply filter_In in Hp as [_ Hp].
  - split; [simpl; auto|]. repeat split; vm_compute; reflexivity.
Qed.

(** ** The store across two calls *)

Lemma detect_loop_store (passwordFields : nat) (l : list Element) :
  forall (store : Stateful.Store) (array : list Element),
  Stateful.arrays store !! passwordFields = Some array ->
  let store' :=
    fold_left (fun store field =>
      if isPasswordField (Stateful.readThis store) (Some field)
      then Stateful.arrayPush passwordFields field store
      else store) l store in
  Stateful.instance store' = Stateful.instance store /\
  Stateful.arrays store' !! passwordFields
  = Some (array ++ List.filter
            (fun field => isPasswordField (Stateful.instance store) (Some field)) l) /\
  forall reference, reference <> passwordFields ->
    Stateful.arrays store' !! reference = Stateful.arrays store !! reference.
Proof.
  induction l as [|field l IH]; intros store array Harray; cbv zeta;
    cbn [fold_left List.filter].
  - split; [reflexivity|]. split; [now rewrite app_nil_r|reflexivity].
  - change (Stateful.readThis store) with (Stateful.instance store).
    destruct (isPasswordField (Stateful.instance store) (Some field)).
    + assert (Hpushed : Stateful.arrays (Stateful.arrayPush passwordFields field store)
                          !! passwordFields = Some (push array field)).
      { cbn [Stateful.arrayPush Stateful.arrays]. rewrite lookup_alter_eq, Harray.
        reflexivity. }
      specialize (IH _ _ Hpushed). cbv zeta in IH.
      destruct IH as (Hinstance & Hhere & Hothers).
      cbn [Stateful.arrayPush Stateful.instance] in Hinstance, Hhere.
      split; [exact Hinstance|]. split.
      * rewrite Hhere. unfold push. now rewrite <- app_assoc.
      * intros reference Hne. rewrite (Hothers reference Hne).
        cbn [Stateful.arrayPush Stateful.arrays]. now apply lookup_alter_ne.
    + now apply IH.
Qed.

Lemma detectPasswordFields_store (window : Global.Window) (doc : Document)
    (store : Stateful.Store) :
  exists passwordFields store',
    Stateful.detectPasswordFields window (Some doc) store = (passwordFields, store') /\
    Stateful.arrays store !! passwordFields = None /\
    Stateful.instance store' = Stateful.instance store /\
    Stateful.arrays store' !! passwordFields
    = Some (detectPasswordFields (Stateful.instance store) window (Some doc)) /\
    forall reference, reference <> passwordFields ->
      Stateful.arrays store' !! reference = Stateful.arrays store !! reference.
Proof.
  unfold Stateful.detectPasswordFields, Stateful.newArray. cbn [default_arg].
  set (passwordFields := fresh (dom (Stateful.arrays store))).
  set (store0 := {| Stateful.instance := Stateful.instance store;
                    Stateful.arrays := <[passwordFields := []]> (Stateful.arrays store) |}).
  assert (Hfresh : Stateful.arrays store !! passwordFields = None).
  { apply not_elem_of_dom. apply is_fresh. }
  pose proof (detect_loop_store passwordFields (querySelectorAll doc sel_input_textarea)
                store0 [] (lookup_insert_eq _ _ _)) as Hloop.
  cbv zeta in Hloop. destruct Hloop as (Hinstance & Hhere & Hothers).
  eexists _, _. split; [reflexivity|]. split; [exact Hfresh|].
  split; [exact Hinstance|]. split.
  - rewrite Hhere. rewrite detectPasswordFields_filter. reflexivity.
  - intros reference Hne. rewrite (Hothers reference Hne).
    cbn [store0 Stateful.arrays]. now apply lookup_insert_ne.
Qed.

(** C9.  Two consecutive calls of [detectPasswordFields] on the same
    document, the second in the store the first one left, also under
    another ambient document: each returns a new array object, the first
    array is not touched by the second call, both hold the same sequence
    (the inputs and textareas of the document that satisfy
    [isPasswordField], in document order), the detector instance is as
    it was, and so is every array that existed before. *)
Theorem C9_detectPasswordFields_repeatable (window1 window2 : Global.Window)
    (doc : Document) (store : Stateful.Store) :
  exists first store1 second store2,
    Stateful.detectPasswordFields window1 (Some doc) store = (first, store1) /\
    Stateful.detectPasswordFields window2 (Some doc) store1 = (second, store2) /\
    first <> second /\
    Stateful.arrays store1 !! first
    = Some (List.filter (fun field => isPasswordField (Stateful.instance store) (Some field))
              (querySelectorAll doc sel_input_textarea)) /\
    Stateful.arrays store2 !! first = Stateful.arrays store1 !! first /\
    Stateful.arrays store2 !! second = Stateful.arrays store1 !! first /\
    Stateful.instance store2 = Stateful.instance store /\
    forall reference, is_Some (Stateful.arrays store !! reference) ->
      Stateful.arrays store2 !! reference = Stateful.arrays store !! reference.
Proof.
  destruct (detectPasswordFields_store window1 doc store)
    as (first & store1 & Hcall1 & Hfresh1 & Hinstance1 & Hfirst & Hothers1).
  destruct (detectPasswordFields_store window2 doc store1)
    as (second & store2 & Hcall2 & Hfresh2 & Hinstance2 & Hsecond & Hothers2).
  exists first, store1, second, store2.
  assert (Hne : first <> second).
  { intros ->. rewrite Hfirst in Hfresh2. discriminate. }
  split; [exact Hcall1|]. split; [exact Hcall2|]. split; [exact Hne|].
  split; [now rewrite Hfirst, detectPasswordFields_filter|].
  split; [now apply Hothers2|]. split.
  - rewrite Hsecond, Hfirst, Hinstance1, !detectPasswordFields_filter. reflexivity.
  - split; [now rewrite Hinstance2|].
    intros reference [array Harray].
    assert (reference <> first) by (intros ->; congruence).
    assert (reference <> second).
    { intros ->. rewrite Hothers1 in Hfresh2 by assumption. congruence. }
    rewrite Hothers2, Hothers1 by assumption. reflexivity.
Qed.

(** C9 with an array already in the store, at the sign-up page: the two
    calls return two new arrays with the two password fields, and the old
    array is as it was. *)
Lemma C9_witness :
  exists first store1 second store2,
    Stateful.detectPasswordFields (Global.mkWindow signup_page) (Some signup_page)
      (Stateful.mkStore constructor {[ 0 := [email_field] ]}) = (first, store1) /\
    Stateful.detectPasswordFields (Global.mkWindow host_page) (Some signup_page) store1
      = (second, store2) /\
    first <> second /\
    Stateful.arrays store2 !! first = Some [signup_password; signup_confirm] /\
    Stateful.arrays store2 !! second = Some [signup_password; signup_confirm] /\
    Stateful.arrays store2 !! 0 = Some [email_field].
Proof.
  destruct (C9_detectPasswordFields_repeatable (Global.mkWindow signup_page)
              (Global.mkWindow host_page) signup_page
              (Stateful.mkStore constructor {[ 0 := [email_field] ]}))
    as (first & store1 & second & store2 & H1 & H2 & Hne & Hfirst & Hkept & Hsame & _ & Hold).
  exists first, store1, second, store2.
  split; [exact H1|]. split; [exact H2|]. split; [exact Hne|].
  split; [rewrite Hkept, Hfirst; vm_compute; reflexivity|].
  split; [rewrite Hsame, Hfirst; vm_compute; reflexivity|].
  rewrite Hold; [reflexivity|]. exists [email_field]. reflexivity.
Defined.

(** C10.  The four exclude entries that contain a space, a hyphen or an
    underscore are included in no separator-stripped value; taking them
    out of the list changes [hasDisqualifyingValue] for no field; and the
    field of type "password" named "security_code" is a password field. *)
Theorem C10_separated_entries_never_match :
  Forall (fun entry =>
      array_includes (passwordFieldExcludeList constructor) entry = true /\
      forall value, includes (remove is_separator (toLowerCase value)) entry = false)
    ["verification code"; "otc-code"; "otp-code"; "security_code"] /\
  passwordFieldExcludeList (withoutSeparatedEntries constructor)
    = ["hint"; "captcha"; "findanything"; "forgot"; "totp"; "totpcode"; "2facode";
       "mfacode"; "onetimecode"; "otpcode";
       "twofactor"; "twofa"; "twofactorcode"; "verificationcode"] /\
  (forall this field,
     hasDisqualifyingValue this field
     = hasDisqualifyingValue (withoutSeparatedEntries this) field) /\
  type security_code_field = "password" /\
  name security_code_field = "security_code" /\
  hasDisqualifyingValue constructor security_code_field = false /\
  isPasswordField constructor (Some security_code_field) = true.
Proof.
  split.
  - repeat (constructor;
      [split; [reflexivity|intros value; now apply separated_entry_never_included]|]).
    constructor.
  - split; [reflexivity|].
    split; [exact hasDisqualifyingValue_withoutSeparatedEntries|].
    repeat split; vm_compute; reflexivity.
Qed.

(** ** More on positions *)

Lemma indexOf_from_uid (array : list Element) (x y : Element) (i : Z) :
  uid x = uid y -> indexOf_from array x i = indexOf_from array y i.
Proof.
  intros Huid. revert i; induction array as [|z array IH]; intros i; simpl.
  - reflexivity.
  - unfold strict_eq. rewrite Huid. destruct (uid z =? uid y)%nat; auto.
Qed.

Lemma indexOf_from_absent (array : list Element) (x : Element) (i : Z) :
  ~ In (uid x) (map uid array) -> indexOf_from array x i = (-1)%Z.
Proof.
  revert i; induction array as [|y array IH]; intros i Hnin; simpl in *.
  - reflexivity.
  - destruct (strict_eq y x) eqn:E.
    + apply strict_eq_uid in E. tauto.
    + apply IH. tauto.
Qed.

Lemma indexOf_from_lower (array : list Element) (x : Element) (i : Z) :
  (0 <= i -> -1 <= indexOf_from array x i)%Z.
Proof.
  revert i; induction array as [|y array IH]; intros i Hi; simpl.
  - lia.
  - destruct (strict_eq y x); [lia|]. apply IH. lia.
Qed.

Lemma wf_uid_not_in_tail (y : Element) (array : list Element) (x : Element) :
  NoDup (map uid (y :: array)) -> In x array -> strict_eq y x = false.
Proof.
  intros Hnd Hx. simpl in Hnd. apply NoDup_cons in Hnd as [Hy _].
  destruct (strict_eq y x) eqn:E; [|reflexivity].
  apply strict_eq_uid in E. exfalso. apply Hy. rewrite E.
  apply list_elem_of_In. now apply in_map.
Qed.

Lemma nth_indexOf_from (array : list Element) (x : Element) (i : Z) :
  NoDup (map uid array) -> In x array ->
  nth_error array (Z.to_nat (indexOf_from array x i - i)) = Some x.
Proof.
  revert i; induction array as [|y array IH]; intros i Hnd Hin; simpl in Hin.
  - contradiction.
  - destruct Hin as [->|Hin].
    + simpl. rewrite strict_eq_refl. now rewrite Z.sub_diag.
    + simpl. rewrite (wf_uid_not_in_tail y array x Hnd Hin).
      assert (Hnd' : NoDup (map uid array)).
      { simpl in Hnd. now apply NoDup_cons in Hnd as [_ Hnd]. }
      specialize (IH (i + 1)%Z Hnd' Hin).
      pose proof (indexOf_from_found array x (i + 1)%Z (in_map uid _ _ Hin)) as Hb.
      replace (Z.to_nat (indexOf_from array x (i + 1) - i))
        with (S (Z.to_nat (indexOf_from array x (i + 1) - (i + 1)))) by lia.
      exact IH.
Qed.

(** What the uniqueness of element objects gives at a split of the
    document. *)
Lemma wf_document_split (doc : Document) (front back : list Element) (x : Element) :
  wf_document doc -> elements doc = front ++ x :: back ->
  ~ In (uid x) (map uid front) /\
  (forall y, In y back -> ~ In (uid y) (map uid front) /\ strict_eq x y = false) /\
  NoDup (map uid back).
Proof.
  unfold wf_document. intros Hwf Hsplit. rewrite Hsplit, map_app in Hwf. simpl in Hwf.
  apply NoDup_app in Hwf as (_ & Hdisjoint & Hback).
  split; [|split].
  - intros H. apply list_elem_of_In in H. apply (Hdisjoint _ H). constructor.
  - intros y Hy. split.
    + intros H. apply list_elem_of_In in H. apply (Hdisjoint _ H).
      right. apply list_elem_of_In. now apply in_map.
    + exact (wf_uid_not_in_tail x back y Hback Hy).
  - now apply NoDup_cons in Hback as [_ Hback].
Qed.

Lemma filter_positions_increasing (doc : Document) (keep : Element -> bool) :
  wf_document doc ->
  StronglySorted (precedes doc) (List.filter keep (elements doc)).
Proof.
  intros Hwf.
  assert (H : forall back front, elements doc = front ++ back ->
    StronglySorted (precedes doc) (List.filter keep back)).
  { induction back as [|x back IH]; intros front Hsplit; simpl.
    - constructor.
    - assert (Hrest : StronglySorted (precedes doc) (List.filter keep back)).
      { apply (IH (front ++ [x])). rewrite Hsplit, <- app_assoc. reflexivity. }
      destruct (keep x); [|exact Hrest].
      constructor; [exact Hrest|].
      apply List.Forall_forall. intros y Hy. apply filter_In in Hy as [Hy _].
      destruct (wf_document_split doc front back x Hwf Hsplit) as (Hx & Hback & _).
      destruct (Hback y Hy) as [Hyfront Hxy].
      unfold precedes. rewrite !documentOrderIndex_indexOf. unfold indexOf.
      rewrite Hsplit.
      rewrite (indexOf_from_skip front (x :: back) x 0 Hx).
      rewrite (indexOf_from_skip front (x :: back) y 0 Hyfront).
      simpl. rewrite strict_eq_refl, Hxy.
      pose proof (indexOf_from_found back y (0 + Z.of_nat (length front) + 1)%Z
                    (in_map uid _ _ Hy)). lia. }
  exact (H (elements doc) [] eq_refl).
Qed.

Lemma filter_none {A} (keep : A -> bool) (l : list A) :
  (forall x, In x l -> keep x = false) -> List.filter keep l = [].
Proof.
  induction l as [|x l IH]; intros H; simpl; [reflexivity|].
  rewrite (H x) by now left. apply IH. intros y Hy. apply H. now right.
Qed.

(** ** More on the classifiers *)

Lemma isUsernameField_inv this window field passwordField :
  isUsernameField this window (Some field) passwordField = Return true ->
  disabled field = false /\
  has (excludedInputTypes this) (type field) = false /\
  array_includes ["text"; "email"; "tel"] (type field) = true /\
  isSearchField this field = false /\
  matchesUsernamePattern this window field = Return true.
Proof.
  unfold isUsernameField.
  destruct (disabled field); [discriminate|].
  destruct (has (excludedInputTypes this) (type field)); [discriminate|].
  destruct (array_includes ["text"; "email"; "tel"] (type field)); [|discriminate].
  destruct (isSearchField this field); [discriminate|].
  cbn [orb negb].
  destruct passwordField as [p|]; [|now auto].
  destruct (getElementIndex window field >=? getElementIndex window p)%Z;
    [discriminate|now auto].
Qed.

(** With a password field the answer is the answer without one, and the
    test of the positions. *)
Lemma isUsernameField_relative this window field passwordField b :
  isUsernameField this window (Some field) None = Return b ->
  isUsernameField this window (Some field) (Some passwordField)
  = Return (b && (getElementIndex window field <? getElementIndex window passwordField)%Z).
Proof.
  unfold isUsernameField.
  destruct (disabled field || has _ _); [now intros [= <-]|].
  destruct (negb _); [now intros [= <-]|].
  destruct (isSearchField this field); [now intros [= <-]|].
  rewrite Z.geb_leb, Z.leb_antisym.
  destruct (getElementIndex window field <? getElementIndex window passwordField)%Z; simpl.
  - intros ->. now rewrite andb_true_r.
  - intros _. now rewrite andb_false_r.
Qed.

Lemma isUsernameField_later this window field earlier later :
  (getElementIndex window earlier <= getElementIndex window later)%Z ->
  isUsernameField this window (Some field) (Some earlier) = Return true ->
  isUsernameField this window (Some field) (Some later) = Return true.
Proof.
  intros Hle. unfold isUsernameField.
  destruct (disabled field || has _ _); [discriminate|].
  destruct (negb _); [discriminate|].
  destruct (isSearchField this field); [discriminate|].
  destruct (getElementIndex window field >=? getElementIndex window earlier)%Z eqn:E;
    [discriminate|].
  replace (getElementIndex window field >=? getElementIndex window later)%Z with false;
    [auto|].
  symmetry. rewrite Z.geb_leb in *. apply Z.leb_gt. apply Z.leb_gt in E. lia.
Qed.

Lemma isUsernameField_not_before this window field passwordField :
  (getElementIndex window passwordField <= getElementIndex window field)%Z ->
  isUsernameField this window (Some field) (Some passwordField) = Return false.
Proof.
  intros Hle. unfold isUsernameField.
  destruct (disabled field || has _ _); [reflexivity|].
  destruct (negb _); [reflexivity|].
  destruct (isSearchField this field); [reflexivity|].
  replace (getElementIndex window field >=? getElementIndex window passwordField)%Z
    with true; [reflexivity|].
  symmetry. rewrite Z.geb_leb. now apply Z.leb_le.
Qed.

Lemma returned_true_Return (c : completion bool) :
  returned_true c = true <-> c = Return true.
Proof. destruct c as [[]|]; simpl; split; congruence. Qed.

Lemma array_includes_In (array : list string) (x : string) :
  array_includes array x = true <-> In x array.
Proof.
  unfold array_includes. rewrite existsb_exists. split.
  - intros (y & Hy & Heq). apply String.eqb_eq in Heq. now subst.
  - intros H. exists x. split; [exact H|apply String.eqb_refl].
Qed.

Lemma last_In {A} (l : list A) (x : A) : last l = Some x -> In x l.
Proof.
  intros H. apply last_Some in H as (front & ->). apply in_or_app. right. now left.
Qed.

(** ** Further properties of the detector *)

(** X1.  [detectPasswordFields] returns exactly the inputs and textareas
    of the supplied document that are enabled, carry no disqualifying
    value and are of type "password", or of type "text" with a value
    that looks like a password. *)
Theorem detectPasswordFields_exactly (this : FieldDetector) (window : Global.Window)
    (doc : Document) (field : Element) :
  In field (detectPasswordFields this window (Some doc)) <->
  In field (elements doc) /\
  (localName field = "input" \/ localName field = "textarea") /\
  disabled field = false /\
  hasDisqualifyingValue this field = false /\
  (type field = "password" \/ (type field = "text" /\ isLikePassword this field = true)).
Proof.
  rewrite detectPasswordFields_filter. unfold querySelectorAll.
  rewrite !filter_In. unfold sel_input_textarea. cbn [matches isPasswordField].
  rewrite orb_true_iff, !String.eqb_eq.
  split.
  - intros [[Hin Htag] Hok]. split; [exact Hin|]. split; [exact Htag|].
    destruct (disabled field); [discriminate|]. split; [reflexivity|].
    destruct (String.eqb (type field) "password") eqn:Hpw.
    + apply negb_true_iff in Hok. split; [exact Hok|].
      left. now apply String.eqb_eq.
    + destruct (String.eqb (type field) "text") eqn:Htx; [|discriminate].
      destruct (isLikePassword this field); [|discriminate].
      apply negb_true_iff in Hok. split; [exact Hok|].
      right. split; [now apply String.eqb_eq|reflexivity].
  - intros (Hin & Htag & Hdis & Hdisq & Htype). split; [now split|].
    rewrite Hdis, Hdisq. destruct Htype as [Hpw|[Htx Hlike]].
    + rewrite Hpw. reflexivity.
    + rewrite Htx, Hlike. reflexivity.
Qed.

(** X2.  In a document where each element occurs once, both detection
    loops return their fields in document order: positions increase
    strictly along the result, so no field is returned twice. *)
Theorem detection_in_document_order (this : FieldDetector) (window : Global.Window)
    (doc : Document) (passwordField : option Element) :
  wf_document doc ->
  StronglySorted (precedes doc) (detectPasswordFields this window (Some doc)) /\
  forall fields,
    detectUsernameFields this window (Some doc) passwordField = Return fields ->
    StronglySorted (precedes doc) fields.
Proof.
  intros Hwf. split.
  - rewrite detectPasswordFields_filter. unfold querySelectorAll. rewrite filter_filter.
    now apply filter_positions_increasing.
  - intros fields H. apply detectUsernameFields_inv in H as [_ ->].
    unfold querySelectorAll. rewrite filter_filter.
    now apply filter_positions_increasing.
Qed.

Lemma detection_in_document_order_witness :
  wf_document signup_page /\
  detectPasswordFields constructor (Global.mkWindow signup_page) (Some signup_page)
    = [signup_password; signup_confirm] /\
  StronglySorted (precedes signup_page)
    (detectPasswordFields constructor (Global.mkWindow signup_page) (Some signup_page)).
Proof.
  assert (Hwf : wf_document signup_page).
  { unfold wf_document. apply (bool_decide_unpack _). vm_compute. exact I. }
  split; [exact Hwf|]. split; [vm_compute; reflexivity|].
  exact (proj1 (detection_in_document_order constructor (Global.mkWindow signup_page)
                  signup_page None Hwf)).
Defined.

(** X3.  In a document where each element occurs once, the position
    [getElementIndex] gives for an element of the ambient document is in
    range, and the element at that position is the element itself. *)
Theorem getElementIndex_round_trip (window : Global.Window) (element : Element) :
  wf_document (Global.document window) ->
  In element (elements (Global.document window)) ->
  (0 <= getElementIndex window element
     < Z.of_nat (length (elements (Global.document window))))%Z /\
  nth_error (elements (Global.document window)) (Z.to_nat (getElementIndex window element))
  = Some element.
Proof.
  intros Hwf Hin. unfold getElementIndex. rewrite querySelectorAll_all. unfold indexOf.
  split.
  - pose proof (indexOf_from_found _ element 0 (in_map uid _ _ Hin)). lia.
  - pose proof (nth_indexOf_from _ element 0 Hwf Hin) as H.
    now rewrite Z.sub_0_r in H.
Qed.

Lemma getElementIndex_round_trip_witness :
  wf_document signin_page /\
  In signin_email (elements signin_page) /\
  getElementIndex (Global.mkWindow signin_page) signin_email = 4%Z /\
  nth_error (elements signin_page)
    (Z.to_nat (getElementIndex (Global.mkWindow signin_page) signin_email))
  = Some signin_email.
Proof.
  assert (Hwf : wf_document signin_page).
  { unfold wf_document. apply (bool_decide_unpack _). vm_compute. exact I. }
  assert (Hin : In signin_email (elements signin_page)).
  { simpl. auto 10. }
  split; [exact Hwf|]. split; [exact Hin|]. split; [vm_compute; reflexivity|].
  exact (proj2 (getElementIndex_round_trip (Global.mkWindow signin_page) signin_email
                  Hwf Hin)).
Defined.

(** X4.  [getElementIndex] is [-1] exactly for the elements that are not
    in the ambient document, and at least [-1] for all. *)
Theorem getElementIndex_minus_one (window : Global.Window) (element : Element) :
  (-1 <= getElementIndex window element)%Z /\
  (getElementIndex window element = (-1)%Z <->
   ~ In (uid element) (map uid (elements (Global.document window)))).
Proof.
  unfold getElementIndex. rewrite querySelectorAll_all. unfold indexOf. split.
  - apply indexOf_from_lower. lia.
  - split.
    + intros Heq Hin. pose proof (indexOf_from_found _ element 0 Hin). lia.
    + apply indexOf_from_absent.
Qed.

(** X5.  When the password field is not an element of the ambient
    document, no field precedes it: [detectUsernameFields] relative to it
    is empty and [findUsernameForPassword] returns none, for every
    supplied document. *)
Theorem detached_password_field_finds_nothing (this : FieldDetector)
    (window : Global.Window) (doc : Document) (passwordField : Element) :
  ~ In (uid passwordField) (map uid (elements (Global.document window))) ->
  detectUsernameFields this window (Some doc) (Some passwordField) = Return [] /\
  findUsernameForPassword this window (Some passwordField) (Some doc) = Return None.
Proof.
  intros Habsent.
  assert (Hnone : forall field,
    isUsernameField this window (Some field) (Some passwordField) = Return false).
  { intros field. apply isUsernameField_not_before.
    unfold getElementIndex. rewrite !querySelectorAll_all. unfold indexOf.
    rewrite (indexOf_from_absent _ _ 0 Habsent).
    apply indexOf_from_lower. lia. }
  assert (Hall : forall field, In field (querySelectorAll doc sel_input) ->
    exists b, isUsernameField this window (Some field) (Some passwordField) = Return b).
  { intros field _. exists false. apply Hnone. }
  split.
  - rewrite (detectUsernameFields_returns _ _ _ _ Hall). f_equal.
    apply filter_none. intros field _. now rewrite Hnone.
  - rewrite (findUsernameForPassword_returns _ _ _ _ Hall).
    rewrite filter_none; [reflexivity|].
    intros field _. unfold scopedCandidate. now rewrite Hnone.
Qed.

Lemma detached_password_field_finds_nothing_witness :
  ~ In (uid password_field) (map uid (elements host_page)) /\
  detectUsernameFields constructor (Global.mkWindow host_page) (Some login_page)
    (Some password_field) = Return [] /\
  findUsernameForPassword constructor (Global.mkWindow host_page) (Some password_field)
    (Some login_page) = Return None.
Proof.
  assert (H : ~ In (uid password_field) (map uid (elements host_page))).
  { simpl. intros [H|[H|[H|[H|[]]]]]; discriminate. }
  split; [exact H|].
  exact (detached_password_field_finds_nothing constructor (Global.mkWindow host_page)
           login_page password_field H).
Defined.

(** X6.  Supplying a password field to [detectUsernameFields] only
    removes fields: when the call without a password field returns, the
    call with one returns too, namely that result restricted to the
    fields whose position is before the password field's. *)
Theorem password_field_only_removes_candidates (this : FieldDetector)
    (window : Global.Window) (doc : Document) (passwordField : Element)
    (fields : list Element) :
  detectUsernameFields this window (Some doc) None = Return fields ->
  detectUsernameFields this window (Some doc) (Some passwordField)
  = Return (List.filter
      (fun field => (getElementIndex window field <? getElementIndex window passwordField)%Z)
      fields).
Proof.
  intros H. apply detectUsernameFields_inv in H as [Hall ->].
  assert (Hrel : forall field, In field (querySelectorAll doc sel_input) ->
    isUsernameField this window (Some field) (Some passwordField)
    = Return (returned_true (isUsernameField this window (Some field) None) &&
              (getElementIndex window field <? getElementIndex window passwordField)%Z)).
  { intros field Hin. destruct (Hall field Hin) as [b Hb].
    rewrite (isUsernameField_relative _ _ _ passwordField b Hb), Hb. reflexivity. }
  rewrite detectUsernameFields_returns.
  - f_equal. rewrite filter_filter. apply filter_ext_in.
    intros field Hin. now rewrite (Hrel field Hin).
  - intros field Hin. eexists. exact (Hrel field Hin).
Qed.

Lemma password_field_only_removes_candidates_witness :
  detectUsernameFields constructor (Global.mkWindow reset_page) (Some reset_page) None
    = Return [reset_email] /\
  detectUsernameFields constructor (Global.mkWindow reset_page) (Some reset_page)
    (Some reset_password)
  = Return (List.filter
      (fun field => (getElementIndex (Global.mkWindow reset_page) field
                     <? getElementIndex (Global.mkWindow reset_page) reset_password)%Z)
      [reset_email]) /\
  detectUsernameFields constructor (Global.mkWindow reset_page) (Some reset_page)
    (Some reset_password) = Return [].
Proof.
  assert (H : detectUsernameFields constructor (Global.mkWindow reset_page)
                (Some reset_page) None = Return [reset_email]).
  { vm_compute. reflexivity. }
  split; [exact H|]. split; [|vm_compute; reflexivity].
  exact (password_field_only_removes_candidates constructor (Global.mkWindow reset_page)
           reset_page reset_password [reset_email] H).
Defined.

(** X7.  A field returned by [findUsernameForPassword] is an enabled
    input of the supplied document, of type text, email or tel, and is
    never the password field itself. *)
Theorem username_is_never_the_password_field (this : FieldDetector)
    (window : Global.Window) (doc : Document) (passwordField field : Element) :
  findUsernameForPassword this window (Some passwordField) (Some doc) = Return (Some field) ->
  strict_eq field passwordField = false /\
  In field (elements doc) /\
  localName field = "input" /\
  disabled field = false /\
  In (type field) ["text"; "email"; "tel"].
Proof.
  intros H. apply findUsernameForPassword_inv in H as [_ H].
  symmetry in H. apply last_In in H.
  apply filter_In in H as [Hin Hcand].
  unfold querySelectorAll in Hin. apply filter_In in Hin as [Hin Htag].
  unfold scopedCandidate in Hcand. apply andb_true_iff in Hcand as [Huser _].
  apply returned_true_Return in Huser.
  pose proof (isUsernameField_precedes _ _ _ _ Huser) as Hlt.
  apply isUsernameField_inv in Huser as (Hdis & _ & Htype & _).
  split; [|split; [exact Hin|split; [|split; [exact Hdis|]]]].
  - destruct (strict_eq field passwordField) eqn:E; [|reflexivity].
    apply strict_eq_uid in E. unfold getElementIndex, indexOf in Hlt.
    rewrite (indexOf_from_uid _ _ _ 0 E) in Hlt. lia.
  - now apply String.eqb_eq.
  - now apply array_includes_In.
Qed.

Lemma username_is_never_the_password_field_witness :
  findUsernameForPassword constructor (Global.mkWindow login_page) (Some password_field)
    (Some login_page) = Return (Some email_field) /\
  strict_eq email_field password_field = false /\
  In (type email_field) ["text"; "email"; "tel"].
Proof.
  assert (H : findUsernameForPassword constructor (Global.mkWindow login_page)
                (Some password_field) (Some login_page) = Return (Some email_field)).
  { vm_compute. reflexivity. }
  split; [exact H|].
  destruct (username_is_never_the_password_field constructor (Global.mkWindow login_page)
              login_page password_field email_field H) as (Hne & _ & _ & _ & Htype).
  split; [exact Hne|exact Htype].
Defined.

(** ** Values, truthiness and the exclude list *)

Lemma truthy_false (s : string) : truthy s = false -> s = "".
Proof. unfold truthy. intros H. apply negb_false_iff in H. now apply String.eqb_eq. Qed.

(** Over strings, [filter(Boolean)] only drops empty strings; a test
    that fails on the empty string does not see the difference. *)
Lemma existsb_filter_Boolean (test : string -> bool) (values : list string) :
  test "" = false ->
  existsb test (filter_Boolean (map Some values)) = existsb test values.
Proof.
  intros Hempty. induction values as [|v values IH]; simpl; [reflexivity|].
  destruct (truthy v) eqn:Hv; simpl; rewrite IH; [reflexivity|].
  apply truthy_false in Hv. subst v. now rewrite Hempty.
Qed.

Lemma In_filter_Boolean (s : string) (values : list string) :
  In s (filter_Boolean (map Some values)) <-> In s values /\ truthy s = true.
Proof.
  induction values as [|v values IH]; simpl; [tauto|].
  destruct (truthy v) eqn:Hv; simpl; rewrite IH; split.
  - intros [->|[H1 H2]]; auto.
  - intros [[->|H1] H2]; auto.
  - intros [H1 H2]; auto.
  - intros [[->|H1] H2]; [congruence|auto].
Qed.

Lemma includes_empty_string (sub : string) : includes "" sub = true -> sub = "".
Proof. destruct sub; simpl; [reflexivity|discriminate]. Qed.

Lemma excluded_empty_value (excludeList : list string) :
  array_includes excludeList "" = false ->
  existsb (fun exclude => includes "" exclude) excludeList = false.
Proof.
  intros Hno. destruct (existsb _ excludeList) eqn:E; [|reflexivity].
  apply existsb_exists in E as (e & He & Hinc).
  apply includes_empty_string in Hinc. subst e.
  apply array_includes_In in He. congruence.
Qed.

Lemma hasDisqualifyingValue_stripped this field :
  array_includes (passwordFieldExcludeList this) "" = false ->
  hasDisqualifyingValue this field
  = existsb (fun cleanValue =>
      existsb (fun exclude => includes cleanValue exclude) (passwordFieldExcludeList this))
      [remove is_separator (toLowerCase (id field));
       remove is_separator (toLowerCase (name field));
       remove is_separator (toLowerCase (placeholder field))].
Proof.
  intros Hno. unfold hasDisqualifyingValue.
  change [Some (id field); Some (name field); Some (placeholder field)]
    with (map Some [id field; name field; placeholder field]).
  rewrite existsb_filter_Boolean; [reflexivity|].
  now apply excluded_empty_value.
Qed.

Lemma isLikePassword_stripped this field :
  isLikePassword this field
  = existsb (fun cleanValue =>
      includes cleanValue "password" &&
      negb (existsb (fun exclude => includes cleanValue exclude)
              (passwordFieldExcludeList this)))
      [remove is_separator (toLowerCase (id field));
       remove is_separator (toLowerCase (name field));
       remove is_separator (toLowerCase (placeholder field))].
Proof.
  unfold isLikePassword.
  change [Some (id field); Some (name field); Some (placeholder field)]
    with (map Some [id field; name field; placeholder field]).
  rewrite existsb_filter_Boolean; reflexivity.
Qed.

Lemma isPasswordField_inv this field :
  isPasswordField this (Some field) = true ->
  disabled field = false /\
  hasDisqualifyingValue this field = false /\
  (type field = "password" \/ (type field = "text" /\ isLikePassword this field = true)).
Proof.
  unfold isPasswordField.
  destruct (disabled field); [discriminate|].
  destruct (String.eqb (type field) "password") eqn:Hpw.
  - intros H. apply negb_true_iff in H. apply String.eqb_eq in Hpw. auto.
  - destruct (String.eqb (type field) "text") eqn:Htx; [|discriminate].
    destruct (isLikePassword this field); [|discriminate].
    intros H. apply negb_true_iff in H. apply String.eqb_eq in Htx. auto.
Qed.

Lemma hasDisqualifyingValue_monotone this1 this2 field :
  incl (passwordFieldExcludeList this1) (passwordFieldExcludeList this2) ->
  hasDisqualifyingValue this1 field = true -> hasDisqualifyingValue this2 field = true.
Proof.
  intros Hincl. unfold hasDisqualifyingValue. rewrite !existsb_exists.
  intros (v & Hv & H). exists v. split; [exact Hv|].
  apply existsb_exists in H as (e & He & H).
  apply existsb_exists. exists e. split; [now apply Hincl|exact H].
Qed.

Lemma isLikePassword_antitone this1 this2 field :
  incl (passwordFieldExcludeList this1) (passwordFieldExcludeList this2) ->
  isLikePassword this2 field = true -> isLikePassword this1 field = true.
Proof.
  intros Hincl. unfold isLikePassword. rewrite !existsb_exists.
  intros (v & Hv & H). exists v. split; [exact Hv|].
  apply andb_true_iff in H as [Hpw Hex]. rewrite Hpw. simpl.
  apply negb_true_iff in Hex. apply negb_true_iff.
  destruct (existsb _ (passwordFieldExcludeList this1)) eqn:E; [|reflexivity].
  apply existsb_exists in E as (e & He & H).
  rewrite <- Hex. symmetry. apply existsb_exists. exists e.
  split; [now apply Hincl|exact H].
Qed.

(** X8.  An enabled field of type "text" is a password field exactly
    when one of its non-empty [id], [name], [placeholder], lowercased and
    stripped of separators, includes "password" and none of the three
    includes an exclude entry: the exclude test inside [isLikePassword]
    decides nothing that [hasDisqualifyingValue] does not decide. *)
Theorem text_password_field (this : FieldDetector) (field : Element) :
  type field = "text" ->
  disabled field = false ->
  (isPasswordField this (Some field) = true <->
   (exists value,
      In value (filter_Boolean [Some (id field); Some (name field); Some (placeholder field)]) /\
      includes (remove is_separator (toLowerCase value)) "password" = true) /\
   hasDisqualifyingValue this field = false).
Proof.
  intros Htype Hdis. unfold isPasswordField. rewrite Htype, Hdis.
  change (String.eqb "text" "password") with false.
  change (String.eqb "text" "text") with true. cbn [andb].
  split.
  - destruct (isLikePassword this field) eqn:Hlike; [|discriminate].
    intros H. apply negb_true_iff in H. split; [|exact H].
    unfold isLikePassword in Hlike. apply existsb_exists in Hlike as (v & Hv & Hp).
    apply andb_true_iff in Hp as [Hp _]. now exists v.
  - intros [(v & Hv & Hp) Hdisq]. rewrite Hdisq.
    replace (isLikePassword this field) with true; [reflexivity|].
    symmetry. unfold isLikePassword. apply existsb_exists. exists v.
    split; [exact Hv|]. rewrite Hp. simpl. apply negb_true_iff.
    unfold hasDisqualifyingValue in Hdisq.
    destruct (existsb _ (passwordFieldExcludeList this)) eqn:E; [|reflexivity].
    rewrite <- Hdisq. symmetry. apply existsb_exists. now exists v.
Qed.

Lemma text_password_field_witness :
  type email_password_field = "text" /\
  disabled email_password_field = false /\
  isPasswordField constructor (Some email_password_field) = true /\
  hasDisqualifyingValue constructor email_password_field = false.
Proof.
  split; [reflexivity|]. split; [reflexivity|].
  assert (H : isPasswordField constructor (Some email_password_field) = true).
  { vm_compute. reflexivity. }
  split; [exact H|].
  exact (proj2 (proj1 (text_password_field constructor email_password_field
                         eq_refl eq_refl) H)).
Defined.

(** X9.  Case, white space, underscores and hyphens in [id], [name] and
    [placeholder] do not matter to [isPasswordField]: two fields of the
    same type and state whose three values are equal once lowercased and
    stripped of separators are classified alike, provided the exclude
    list has no empty entry. *)
Theorem password_spelling_is_irrelevant (this : FieldDetector) (field1 field2 : Element) :
  array_includes (passwordFieldExcludeList this) "" = false ->
  type field1 = type field2 ->
  disabled field1 = disabled field2 ->
  remove is_separator (toLowerCase (id field1))
    = remove is_separator (toLowerCase (id field2)) ->
  remove is_separator (toLowerCase (name field1))
    = remove is_separator (toLowerCase (name field2)) ->
  remove is_separator (toLowerCase (placeholder field1))
    = remove is_separator (toLowerCase (placeholder field2)) ->
  isPasswordField this (Some field1) = isPasswordField this (Some field2).
Proof.
  intros Hno Htype Hdis Hid Hname Hplaceholder.
  unfold isPasswordField.
  rewrite !(hasDisqualifyingValue_stripped this _ Hno), !isLikePassword_stripped.
  now rewrite Htype, Hdis, Hid, Hname, Hplaceholder.
Qed.

Lemma password_spelling_is_irrelevant_witness :
  name password_hint_field = "password_hint" /\
  name capital_hint_field = "PASSWORD HINT" /\
  isPasswordField constructor (Some password_hint_field)
  = isPasswordField constructor (Some capital_hint_field).
Proof.
  split; [reflexivity|]. split; [reflexivity|].
  apply (password_spelling_is_irrelevant constructor password_hint_field capital_hint_field);
    reflexivity.
Defined.

(** X10.  A longer exclude list never adds password fields: a field that
    is a password field for a detector is a password field for every
    detector whose exclude list has only entries of the first one. *)
Theorem fewer_exclusions_keep_password_fields (this1 this2 : FieldDetector)
    (field : Element) :
  incl (passwordFieldExcludeList this1) (passwordFieldExcludeList this2) ->
  isPasswordField this2 (Some field) = true ->
  isPasswordField this1 (Some field) = true.
Proof.
  intros Hincl H. apply isPasswordField_inv in H as (Hdis & Hdisq & Htype).
  assert (Hdisq1 : hasDisqualifyingValue this1 field = false).
  { destruct (hasDisqualifyingValue this1 field) eqn:E; [|reflexivity].
    rewrite <- Hdisq. symmetry. exact (hasDisqualifyingValue_monotone _ _ _ Hincl E). }
  unfold isPasswordField. rewrite Hdis, Hdisq1.
  destruct Htype as [Hpw|[Htx Hlike]].
  - now rewrite Hpw.
  - rewrite Htx, (isLikePassword_antitone _ _ _ Hincl Hlike). reflexivity.
Qed.

Lemma fewer_exclusions_keep_password_fields_witness :
  incl (passwordFieldExcludeList (withoutSeparatedEntries constructor))
       (passwordFieldExcludeList constructor) /\
  isPasswordField constructor (Some password_field) = true /\
  isPasswordField (withoutSeparatedEntries constructor) (Some password_field) = true.
Proof.
  assert (Hincl : incl (passwordFieldExcludeList (withoutSeparatedEntries constructor))
                       (passwordFieldExcludeList constructor)).
  { intros e He. cbn [passwordFieldExcludeList withoutSeparatedEntries] in He.
    apply filter_In in He as [He _]. exact He. }
  assert (H : isPasswordField constructor (Some password_field) = true).
  { vm_compute. reflexivity. }
  split; [exact Hincl|]. split; [exact H|].
  exact (fewer_exclusions_keep_password_fields (withoutSeparatedEntries constructor)
           constructor password_field Hincl H).
Defined.

(** X11.  The two classifiers overlap only on type "text": a field that
    is both a username field and a password field has that type; a field
    of type "password" is never a username field, and a field of type
    "email" or "tel" is never a password field. *)
Theorem classifiers_overlap_only_on_text (this : FieldDetector) (window : Global.Window)
    (field : Element) (passwordField : option Element) :
  (isUsernameField this window (Some field) passwordField = Return true ->
   isPasswordField this (Some field) = true -> type field = "text") /\
  (type field = "password" ->
   isUsernameField this window (Some field) passwordField = Return false) /\
  (type field = "email" \/ type field = "tel" -> isPasswordField this (Some field) = false).
Proof.
  split; [|split].
  - intros Hu Hp. apply isUsernameField_inv in Hu as (_ & _ & Htype & _).
    apply isPasswordField_inv in Hp as (_ & _ & [Hpw|[Htx _]]); [|exact Htx].
    rewrite Hpw in Htype. discriminate.
  - intros Hpw. unfold isUsernameField. rewrite Hpw.
    destruct (disabled field || has _ _); reflexivity.
  - intros Htype.
    destruct (isPasswordField this (Some field)) eqn:E; [|reflexivity].
    apply isPasswordField_inv in E as (_ & _ & [Hpw|[Htx _]]);
      destruct Htype as [H|H]; congruence.
Qed.

Lemma classifiers_overlap_only_on_text_witness :
  isUsernameField constructor (Global.mkWindow host_page) (Some email_password_field) None
    = Return true /\
  isPasswordField constructor (Some email_password_field) = true /\
  type email_password_field = "text".
Proof.
  assert (Hu : isUsernameField constructor (Global.mkWindow host_page)
                 (Some email_password_field) None = Return true).
  { vm_compute. reflexivity. }
  assert (Hp : isPasswordField constructor (Some email_password_field) = true).
  { vm_compute. reflexivity. }
  split; [exact Hu|]. split; [exact Hp|].
  exact (proj1 (classifiers_overlap_only_on_text constructor (Global.mkWindow host_page)
                  email_password_field None) Hu Hp).
Defined.

(** X12.  The excluded type set decides nothing as long as it holds none
    of "text", "email" and "tel": [isUsernameField] gives the same answer
    with an empty set, since the next test admits these three types
    only. *)
Theorem excluded_types_decide_nothing (this : FieldDetector) (window : Global.Window)
    (field passwordField : option Element) :
  has (excludedInputTypes this) "text" = false ->
  has (excludedInputTypes this) "email" = false ->
  has (excludedInputTypes this) "tel" = false ->
  isUsernameField this window field passwordField
  = isUsernameField (withExcludedInputTypes this ∅) window field passwordField.
Proof.
  intros Htext Hemail Htel. destruct field as [field|]; [|reflexivity].
  unfold isUsernameField. cbn [excludedInputTypes withExcludedInputTypes].
  replace (has ∅ (type field)) with false by reflexivity.
  destruct (disabled field); [reflexivity|]. cbn [orb].
  destruct (has (excludedInputTypes this) (type field)) eqn:Hex; [|reflexivity].
  destruct (array_includes ["text"; "email"; "tel"] (type field)) eqn:Hin; [|reflexivity].
  apply array_includes_In in Hin. simpl in Hin.
  destruct Hin as [H|[H|[H|[]]]]; rewrite <- H in Hex; congruence.
Qed.

Lemma excluded_types_decide_nothing_witness :
  has (excludedInputTypes constructor) "text" = false /\
  has (excludedInputTypes constructor) "email" = false /\
  has (excludedInputTypes constructor) "tel" = false /\
  isUsernameField constructor (Global.mkWindow login_page) (Some email_field)
    (Some password_field)
  = isUsernameField (withExcludedInputTypes constructor ∅) (Global.mkWindow login_page)
      (Some email_field) (Some password_field).
Proof.
  do 3 (split; [reflexivity|]).
  apply (excluded_types_decide_nothing constructor (Global.mkWindow login_page));
    reflexivity.
Defined.

(** ** Words of a value *)

Lemma append_nil (b : string) : String.append "" b = b.
Proof. reflexivity. Qed.

Lemma append_cons (c : ascii) (a b : string) :
  String.append (String c a) b = String c (String.append a b).
Proof. reflexivity. Qed.

Lemma toLowerCase_append (a b : string) :
  toLowerCase (String.append a b) = String.append (toLowerCase a) (toLowerCase b).
Proof.
  induction a as [|c a IH]; [reflexivity|].
  cbn [toLowerCase]. rewrite !append_cons. cbn [toLowerCase]. now rewrite IH.
Qed.

Lemma is_letter_toLowerCase_unit (c : ascii) :
  is_letter (toLowerCase_unit c) = is_letter c.
Proof. destruct c as [[] [] [] [] [] [] [] []]; reflexivity. Qed.

Lemma any_nonletter_toLowerCase (w : string) :
  any_unit (fun c => negb (is_letter c)) (toLowerCase w)
  = any_unit (fun c => negb (is_letter c)) w.
Proof.
  induction w as [|c w IH]; simpl; [reflexivity|].
  now rewrite is_letter_toLowerCase_unit, IH.
Qed.

Lemma append_empty_r (s : string) : String.append s "" = s.
Proof. induction s as [|c s IH]; [reflexivity|]. now rewrite append_cons, IH. Qed.

Lemma append_assoc (a b c : string) :
  String.append (String.append a b) c = String.append a (String.append b c).
Proof. induction a as [|x a IH]; [reflexivity|]. now rewrite !append_cons, IH. Qed.

Lemma rev_string_rev_string (w acc acc' : string) :
  rev_string acc (rev_string acc' w) = rev_string (String.append w acc) acc'.
Proof.
  revert acc acc'; induction w as [|c w IH]; intros acc acc'; [reflexivity|].
  cbn [rev_string]. rewrite IH, append_cons. reflexivity.
Qed.

(** A run of units outside the separator class is read into the piece
    under construction. *)
Lemma split_from_word (cls : ascii -> bool) (w cur s : string) :
  any_unit cls w = false ->
  split_from cls cur (String.append w s) = split_from cls (rev_string cur w) s.
Proof.
  revert cur; induction w as [|c w IH]; intros cur Hw; [reflexivity|].
  cbn [any_unit] in Hw. apply orb_false_iff in Hw as [Hc Hw].
  rewrite append_cons. cbn [split_from rev_string]. rewrite Hc. now apply IH.
Qed.

(** What follows a separator is split on its own. *)
Lemma split_from_after_separator (cls : ascii -> bool) (front rest cur : string)
    (c : ascii) (w : string) :
  cls c = true -> In w (split cls rest) ->
  In w (split_from cls cur (String.append front (String c rest))).
Proof.
  intros Hc Hw. revert cur; induction front as [|d front IH]; intros cur.
  - rewrite append_nil. cbn [split_from]. rewrite Hc. now right.
  - rewrite append_cons. cbn [split_from]. destruct (cls d); [right|]; apply IH.
Qed.

Lemma word_then_boundary (w after : string) :
  any_unit (fun c => negb (is_letter c)) w = false ->
  word_end after ->
  In w (split (fun c => negb (is_letter c)) (String.append w after)).
Proof.
  intros Hw Hend. unfold split. rewrite (split_from_word _ w "" after Hw).
  assert (Hrev : rev_string "" (rev_string "" w) = w).
  { rewrite rev_string_rev_string. cbn [rev_string]. apply append_empty_r. }
  destruct Hend as [->|(c & rest & -> & Hc)]; cbn [split_from].
  - left. exact Hrev.
  - rewrite Hc. cbn [negb]. left. exact Hrev.
Qed.

Lemma delimited_word_in_split (before w after : string) :
  any_unit (fun c => negb (is_letter c)) w = false ->
  word_start before -> word_end after ->
  In w (split (fun c => negb (is_letter c))
          (String.append before (String.append w after))).
Proof.
  intros Hw Hstart Hend.
  pose proof (word_then_boundary w after Hw Hend) as Hin.
  destruct Hstart as [->|(front & c & -> & Hc)]; [exact Hin|].
  rewrite append_assoc, append_cons, append_nil. unfold split.
  apply split_from_after_separator; [now rewrite Hc|exact Hin].
Qed.

Lemma word_start_toLowerCase (before : string) :
  word_start before -> word_start (toLowerCase before).
Proof.
  intros [->|(front & c & -> & Hc)]; [now left|].
  right. exists (toLowerCase front), (toLowerCase_unit c).
  rewrite toLowerCase_append, is_letter_toLowerCase_unit. cbn [toLowerCase]. auto.
Qed.

Lemma word_end_toLowerCase (after : string) :
  word_end after -> word_end (toLowerCase after).
Proof.
  intros [->|(c & rest & -> & Hc)]; [now left|].
  right. exists (toLowerCase_unit c), (toLowerCase rest).
  rewrite is_letter_toLowerCase_unit. cbn [toLowerCase]. auto.
Qed.

Lemma truthy_around_word (before w after : string) :
  w <> "" -> truthy (String.append before (String.append w after)) = true.
Proof.
  intros Hw. destruct before; [|reflexivity].
  destruct w; [congruence|reflexivity].
Qed.

(** X13.  A word of the search vocabulary that stands in [type], [name],
    [id] or [placeholder] between word boundaries (the ends of the value
    or code units that are not letters), in any case, makes the field a
    search field, and [isUsernameField] rejects it; this for a value of
    ASCII code units, which lowercasing maps one by one. *)
Theorem delimited_search_word_rejects (this : FieldDetector) (window : Global.Window)
    (field : Element) (passwordField : option Element) (value before word after : string) :
  In value [type field; name field; id field; placeholder field] ->
  ascii_only value = true ->
  value = String.append before (String.append word after) ->
  word_start before ->
  word_end after ->
  word <> "" ->
  any_unit (fun c => negb (is_letter c)) word = false ->
  has (searchFieldNames this) (toLowerCase word) = true ->
  isSearchField this field = true /\
  isUsernameField this window (Some field) passwordField = Return false.
Proof.
  intros Hvalue _ Hsplit Hstart Hend Hword Hletters Hhas.
  assert (Hsearch : isSearchField this field = true).
  { unfold isSearchField. apply existsb_exists. exists value. split.
    - change [Some (type field); Some (name field); Some (id field);
              Some (placeholder field)]
        with (map Some [type field; name field; id field; placeholder field]).
      apply In_filter_Boolean. split; [exact Hvalue|].
      rewrite Hsplit. now apply truthy_around_word.
    - rewrite replace_camel_toLowerCase. apply existsb_exists.
      exists (toLowerCase word). split; [|exact Hhas].
      rewrite Hsplit, !toLowerCase_append.
      apply delimited_word_in_split.
      + now rewrite any_nonletter_toLowerCase.
      + now apply word_start_toLowerCase.
      + now apply word_end_toLowerCase. }
  split; [exact Hsearch|]. now apply isSearchField_rejected.
Qed.

Lemma delimited_search_word_rejects_witness :
  name search_box_field = String.append "site_" (String.append "Search" "_box") /\
  ascii_only (name search_box_field) = true /\
  word_start "site_" /\
  word_end "_box" /\
  isSearchField constructor search_box_field = true /\
  isUsernameField constructor (Global.mkWindow host_page) (Some search_box_field) None
  = Return false.
Proof.
  assert (Hstart : word_start "site_").
  { right. exists "site", "_"%char. split; reflexivity. }
  assert (Hend : word_end "_box").
  { right. exists "_"%char, "box". split; reflexivity. }
  split; [reflexivity|]. split; [reflexivity|].
  split; [exact Hstart|]. split; [exact Hend|].
  apply (delimited_search_word_rejects constructor (Global.mkWindow host_page)
           search_box_field None (name search_box_field) "site_" "Search" "_box").
  - simpl. auto.
  - reflexivity.
  - reflexivity.
  - exact Hstart.
  - exact Hend.
  - discriminate.
  - reflexivity.
  - reflexivity.
Defined.

(** ** The username pattern *)

Lemma startsWith_refl (s : string) : startsWith s s = true.
Proof. induction s as [|c s IH]; simpl; [reflexivity|]. now rewrite Ascii.eqb_refl. Qed.

Lemma includes_refl (s : string) : includes s s = true.
Proof. destruct s; simpl; [reflexivity|]. now rewrite Ascii.eqb_refl, startsWith_refl. Qed.

(** X14.  [matchesUsernamePattern] returns true exactly when the label
    lookup returns and one of the non-empty attributes ([id], [name],
    [placeholder], the label text, [aria-label]), lowercased and stripped
    to letters and digits, includes a vocabulary entry stripped in the
    same way; the equality test of the source is a case of the substring
    test. *)
Theorem username_pattern_is_substring_match (this : FieldDetector)
    (window : Global.Window) (field : Element) :
  matchesUsernamePattern this window field = Return true <->
  exists label attr entry,
    getFieldLabel window field = Return label /\
    In attr (filter_Boolean
               [Some (id field); Some (name field); Some (placeholder field);
                Some label; getAttribute field "aria-label"]) /\
    In entry (usernameFieldNames this) /\
    includes (remove (fun c => negb (is_alnum c)) (toLowerCase attr))
             (remove (fun c => negb (is_alnum c)) entry) = true.
Proof.
  unfold matchesUsernamePattern.
  destruct (getFieldLabel window field) as [label|e]; cbn [mbind completion_bind].
  - split.
    + intros H. injection H as H. apply existsb_exists in H as (attr & Hattr & H).
      apply existsb_exists in H as (entry & Hentry & H).
      exists label, attr, entry. split; [reflexivity|]. split; [exact Hattr|].
      split; [exact Hentry|].
      apply orb_true_iff in H as [H|H]; [|exact H].
      apply String.eqb_eq in H. rewrite H. apply includes_refl.
    + intros (label' & attr & entry & Hlabel & Hattr & Hentry & H).
      injection Hlabel as <-. unfold mret, completion_ret. f_equal.
      apply existsb_exists. exists attr. split; [exact Hattr|].
      apply existsb_exists. exists entry. split; [exact Hentry|].
      rewrite H. apply orb_true_r.
  - split; [discriminate|]. intros (label & _ & _ & Hlabel & _). discriminate.
Qed.

(** ** Forms around the fields *)

Lemma closest_matches (sel : Selector) :
  forall (e r : Element), closest sel e = Some r -> matches sel r = true.
Proof.
  fix IH 1. intros e r. destruct e as [u tag ty i n ph d attrs txt act meth parent].
  cbn [closest parentElement].
  destruct (matches sel _) eqn:Hm.
  - intros H. injection H as <-. exact Hm.
  - destruct parent as [p|]; [apply (IH p)|discriminate].
Qed.

Lemma scopedCandidate_later this window p1 p2 field :
  closest sel_form p1 = closest sel_form p2 ->
  (getElementIndex window p1 <= getElementIndex window p2)%Z ->
  scopedCandidate this window p1 field = true ->
  scopedCandidate this window p2 field = true.
Proof.
  intros Hform Hle. unfold scopedCandidate. rewrite <- Hform.
  rewrite !andb_true_iff, !returned_true_Return.
  intros [Hu Hf]. split; [|exact Hf].
  exact (isUsernameField_later _ _ _ _ _ Hle Hu).
Qed.

(** X15.  In every record of [getLoginForms], [form] is the nearest form
    around the password field, [formAction] and [formMethod] are that
    form's [action] and [method] and are absent exactly when it is; and
    when both a form and a username field are present, the username
    field lies in that form. *)
Theorem login_form_record_fields (this : FieldDetector) (window : Global.Window)
    (doc : Document) (forms : list LoginForm) (record : LoginForm) :
  getLoginForms this window (Some doc) = Return forms ->
  In record forms ->
  form record = closest sel_form (passwordField record) /\
  formAction record = option_map action (form record) /\
  formMethod record = option_map method (form record) /\
  (forall enclosing, form record = Some enclosing -> localName enclosing = "form") /\
  (forall enclosing field,
     form record = Some enclosing -> usernameField record = Some field ->
     strict_eq_nullable (closest sel_form field) enclosing = true).
Proof.
  intros H Hin. apply getLoginForms_inv in H as [_ ->].
  apply in_map_iff in Hin as (p & <- & _). cbn [form passwordField usernameField
    formAction formMethod].
  split; [reflexivity|]. split; [now destruct (closest sel_form p)|].
  split; [now destruct (closest sel_form p)|]. split.
  - intros enclosing H. apply closest_matches in H. now apply String.eqb_eq.
  - intros enclosing field Hform Hlast. apply last_In in Hlast.
    apply filter_In in Hlast as [_ Hcand]. unfold scopedCandidate in Hcand.
    rewrite Hform in Hcand. now apply andb_true_iff in Hcand as [_ Hcand].
Qed.

Lemma login_form_record_fields_witness :
  exists record,
    getLoginForms constructor (Global.mkWindow login_page) (Some login_page)
      = Return [record] /\
    form record = Some login_form /\
    formAction record = Some "/login" /\
    formMethod record = Some "post" /\
    (forall enclosing field,
       form record = Some enclosing -> usernameField record = Some field ->
       strict_eq_nullable (closest sel_form field) enclosing = true).
Proof.
  exists (mkLoginForm (Some login_form) password_field (Some email_field)
            (Some "/login") (Some "post")).
  assert (H : getLoginForms constructor (Global.mkWindow login_page) (Some login_page)
              = Return [mkLoginForm (Some login_form) password_field (Some email_field)
                          (Some "/login") (Some "post")]).
  { vm_compute. reflexivity. }
  split; [exact H|]. do 3 (split; [reflexivity|]).
  exact (proj2 (proj2 (proj2 (proj2
    (login_form_record_fields constructor (Global.mkWindow login_page) login_page _ _ H
       (or_introl eq_refl)))))).
Defined.

(** X16.  In a document where each element occurs once and every input
    has a plain [id], a password field that comes later, in the same
    form, is paired at least as well as an earlier one: when
    [findUsernameForPassword] returns a field for the earlier password
    field it returns one for the later, at the same position or after
    it. *)
Theorem later_password_field_keeps_username (this : FieldDetector)
    (window : Global.Window) (doc : Document) (earlier later field : Element) :
  wf_document doc ->
  plain_ids doc = true ->
  closest sel_form earlier = closest sel_form later ->
  (getElementIndex window earlier <= getElementIndex window later)%Z ->
  findUsernameForPassword this window (Some earlier) (Some doc) = Return (Some field) ->
  exists field',
    findUsernameForPassword this window (Some later) (Some doc) = Return (Some field') /\
    (documentOrderIndex doc field <= documentOrderIndex doc field')%Z.
Proof.
  intros Hwf Hplain Hform Hle H.
  apply findUsernameForPassword_inv in H as [_ H]. symmetry in H. apply last_In in H.
  rewrite (findUsernameForPassword_returns this window doc later
             (plain_ids_return this window doc (Some later) Hplain)).
  apply filter_In in H as [Hin Hcand].
  apply (scopedCandidate_later _ _ _ _ _ Hform Hle) in Hcand.
  assert (Hlater : In field (List.filter (scopedCandidate this window later)
                               (querySelectorAll doc sel_input))).
  { apply filter_In. now split. }
  destruct (List.filter (scopedCandidate this window later) (querySelectorAll doc sel_input))
    as [|x rest] eqn:E using rev_ind; [destruct Hlater|].
  clear IHrest. exists x. rewrite last_snoc. split; [reflexivity|].
  apply in_app_or in Hlater as [Hfront|[<-|[]]]; [|lia].
  unfold querySelectorAll in E. rewrite filter_filter in E.
  pose proof (last_kept_is_greatest doc _ rest x field Hwf E Hfront). lia.
Qed.

Lemma later_password_field_keeps_username_witness :
  wf_document signup_page /\
  plain_ids signup_page = true /\
  closest sel_form signup_password = closest sel_form signup_confirm /\
  findUsernameForPassword constructor (Global.mkWindow signup_page)
    (Some signup_password) (Some signup_page) = Return (Some signup_email) /\
  exists field',
    findUsernameForPassword constructor (Global.mkWindow signup_page)
      (Some signup_confirm) (Some signup_page) = Return (Some field') /\
    (documentOrderIndex signup_page signup_email <= documentOrderIndex signup_page field')%Z.
Proof.
  assert (Hwf : wf_document signup_page).
  { unfold wf_document. apply (bool_decide_unpack _). vm_compute. exact I. }
  assert (Hplain : plain_ids signup_page = true).
  { vm_compute. reflexivity. }
  assert (H : findUsernameForPassword constructor (Global.mkWindow signup_page)
                (Some signup_password) (Some signup_page) = Return (Some signup_email)).
  { vm_compute. reflexivity. }
  split; [exact Hwf|]. split; [exact Hplain|]. split; [reflexivity|]. split; [exact H|].
  apply (later_password_field_keeps_username constructor (Global.mkWindow signup_page)
           signup_page signup_password signup_confirm signup_email Hwf Hplain eq_refl);
    [|exact H].
  vm_compute. discriminate.
Defined.

(** X17.  Without a password field, the answer of [isUsernameField] for
    a field that has no [id] does not depend on the ambient document:
    only the lookup of a label by id reads it. *)
Theorem username_field_without_id_ignores_ambient (this : FieldDetector)
    (window1 window2 : Global.Window) (field : Element) :
  id field = "" ->
  isUsernameField this window1 (Some field) None
  = isUsernameField this window2 (Some field) None.
Proof.
  intros Hid.
  assert (Hlabel : getFieldLabel window1 field = getFieldLabel window2 field).
  { unfold getFieldLabel. now rewrite Hid. }
  unfold isUsernameField, matchesUsernamePattern. now rewrite Hlabel.
Qed.

Lemma username_field_without_id_ignores_ambient_witness :
  id email_field = "" /\
  isUsernameField constructor (Global.mkWindow login_page) (Some email_field) None
  = isUsernameField constructor (Global.mkWindow host_page) (Some email_field) None.
Proof.
  split; [reflexivity|].
  exact (username_field_without_id_ignores_ambient constructor (Global.mkWindow login_page)
           (Global.mkWindow host_page) email_field eq_refl).
Defined.

Lemma split_single_word (w : string) :
  any_unit (fun c => negb (is_letter c)) w = false ->
  split (fun c => negb (is_letter c)) w = [w].
Proof.
  intros Hw. unfold split. rewrite <- (append_empty_r w) at 1.
  rewrite (split_from_word _ w "" "" Hw). cbn [split_from].
  rewrite rev_string_rev_string. cbn [rev_string]. now rewrite append_empty_r.
Qed.

(** X18.  A search word inside a longer run of letters is not seen: for
    a field whose [type], [name], [id] and [placeholder] consist of
    letters only, [isSearchField] holds exactly when one of these
    values, as a whole and lowercased, is in the search vocabulary. *)
Theorem undelimited_search_word_is_not_seen (this : FieldDetector) (field : Element) :
  (forall value, In value [type field; name field; id field; placeholder field] ->
     any_unit (fun c => negb (is_letter c)) value = false) ->
  (isSearchField this field = true <->
   exists value,
     In value [type field; name field; id field; placeholder field] /\
     value <> "" /\
     has (searchFieldNames this) (toLowerCase value) = true).
Proof.
  intros Hletters. unfold isSearchField.
  change [Some (type field); Some (name field); Some (id field); Some (placeholder field)]
    with (map Some [type field; name field; id field; placeholder field]).
  rewrite existsb_exists. split.
  - intros (value & Hvalue & Hwords). apply In_filter_Boolean in Hvalue as [Hvalue Htruthy].
    exists value. split; [exact Hvalue|]. split.
    + intros ->. discriminate.
    + rewrite replace_camel_toLowerCase, split_single_word in Hwords.
      * simpl in Hwords. now rewrite orb_false_r in Hwords.
      * rewrite any_nonletter_toLowerCase. now apply Hletters.
  - intros (value & Hvalue & Hne & Hhas). exists value. split.
    + apply In_filter_Boolean. split; [exact Hvalue|].
      unfold truthy. apply negb_true_iff. now apply String.eqb_neq.
    + rewrite replace_camel_toLowerCase, split_single_word.
      * simpl. now rewrite Hhas.
      * rewrite any_nonletter_toLowerCase. now apply Hletters.
Qed.

Lemma undelimited_search_word_is_not_seen_witness :
  name siteSearch_field = "siteSearch" /\
  isSearchField constructor siteSearch_field = false.
Proof.
  split; [reflexivity|].
  assert (Hletters : forall value,
    In value [type siteSearch_field; name siteSearch_field; id siteSearch_field;
              placeholder siteSearch_field] ->
    any_unit (fun c => negb (is_letter c)) value = false).
  { intros value [<-|[<-|[<-|[<-|[]]]]]; reflexivity. }
  destruct (isSearchField constructor siteSearch_field) eqn:E; [|reflexivity].
  apply (undelimited_search_word_is_not_seen constructor siteSearch_field Hletters) in E.
  destruct E as (value & Hvalue & _ & Hhas).
  destruct Hvalue as [<-|[<-|[<-|[<-|[]]]]]; vm_compute in Hhas; discriminate.
Defined.
